(** * license_header_hook: a shallow embedding of the header rewriter

    The Python module [license_header_hook.py] inserts or replaces a license
    comment block at the top of source files.  This development embeds its
    string functions, its comment-style registry and [process_file] with an
    explicit file store, and proves properties of them.

    Modelling conventions.
    - A Python [str] is a list of characters.  Characters are the code points
      below 256 (type [ascii]); [isspace] follows [str.isspace] on that range.
    - [for]/[while] loops that walk a list of lines by index are recursions
      over the remaining suffix of the list that carry the index along.
    - Files live in a store mapping paths to what they hold.  Reading is in
      text mode with universal newlines; writing keeps the text as it is
      ([os.linesep] is the newline character, as on POSIX systems).  Every
      [open] is recorded in a trace.  Console messages ([print]) are not
      modelled. *)

From Stdlib Require Import Ascii String DecimalString.
From Stdlib Require Import List Bool Arith Lia.
Import ListNotations.

(** ** Python strings *)

Definition str := list ascii.

Definition lit (s : string) : str := list_ascii_of_string s.

Definition NL : ascii := "010"%char.
Definition SP : ascii := " "%char.

Module Py.

(** [s == t] on strings. *)
Fixpoint eqb (s t : str) : bool :=
  match s, t with
  | [], [] => true
  | a :: s', b :: t' => Ascii.eqb a b && eqb s' t'
  | _, _ => false
  end.

(** [c.isspace()] for code points below 256: TAB..CR, FS..US, space, NEL
    (0x85) and NBSP (0xA0). *)
Definition isspace (c : ascii) : bool :=
  let n := nat_of_ascii c in
  ((9 <=? n) && (n <=? 13)) || ((28 <=? n) && (n <=? 32))
  || (n =? 133) || (n =? 160).

(** [s.lstrip()] *)
Fixpoint lstrip (s : str) : str :=
  match s with
  | c :: s' => if isspace c then lstrip s' else s
  | [] => []
  end.

(** [s.rstrip()] *)
Fixpoint rstrip (s : str) : str :=
  match s with
  | c :: s' =>
      match rstrip s' with
      | [] => if isspace c then [] else [c]
      | r => c :: r
      end
  | [] => []
  end.

(** [s.strip()] *)
Definition strip (s : str) : str := lstrip (rstrip s).

(** [s.lstrip("\n")] *)
Fixpoint lstrip_nl (s : str) : str :=
  match s with
  | c :: s' => if Ascii.eqb c NL then lstrip_nl s' else s
  | [] => []
  end.

(** [s.startswith(p)] *)
Fixpoint startswith (s p : str) {struct p} : bool :=
  match p, s with
  | [], _ => true
  | a :: p', b :: s' => Ascii.eqb a b && startswith s' p'
  | _ :: _, [] => false
  end.

(** [s.endswith(p)] *)
Definition endswith (s p : str) : bool :=
  (length p <=? length s) && eqb (skipn (length s - length p) s) p.

(** [p in s] *)
Fixpoint contains (p s : str) : bool :=
  startswith s p ||
  match s with
  | _ :: s' => contains p s'
  | [] => false
  end.

(** [s[n:]] for [n >= 0] *)
Definition slice_from (n : nat) (s : str) : str := skipn n s.

(** [s[:-n]] for [n >= 0]; Python reads [s[:-0]] as [s[:0]]. *)
Definition slice_to_neg (n : nat) (s : str) : str :=
  match n with
  | 0 => []
  | _ => firstn (length s - n) s
  end.

(** [s.split("\n")] *)
Fixpoint split_nl (s : str) : list str :=
  match s with
  | [] => [[]]
  | c :: s' =>
      if Ascii.eqb c NL then [] :: split_nl s'
      else match split_nl s' with
           | l :: ls => (c :: l) :: ls
           | [] => [[c]]
           end
  end.

(** ["\n".join(ls)] *)
Fixpoint join_nl (ls : list str) : str :=
  match ls with
  | [] => []
  | [l] => l
  | l :: ls' => l ++ NL :: join_nl ls'
  end.

(** [c.lower()] for code points below 256. *)
Definition lower_char (c : ascii) : ascii :=
  let n := nat_of_ascii c in
  if ((65 <=? n) && (n <=? 90))
     || ((192 <=? n) && (n <=? 222) && negb (n =? 215))
  then ascii_of_nat (n + 32) else c.

(** [s.lower()] *)
Definition lower (s : str) : str := map lower_char s.

(** Truthiness of a string: [bool(s)]. *)
Definition truthy (s : str) : bool :=
  match s with [] => false | _ => true end.

(** [str(n)] for a non-negative integer. *)
Definition str_of_nat (n : nat) : str :=
  lit (NilEmpty.string_of_uint (Nat.to_uint n)).

End Py.

(** ** Comment styles and the registry *)

(** A comment style is the dict with the keys ["start"], ["middle"] and
    ["end"]. *)
Record comment_style := mk_style {
  start : str;
  middle : str;
  end_ : str
}.

Definition style_eqb (a b : comment_style) : bool :=
  Py.eqb (start a) (start b) && Py.eqb (middle a) (middle b)
  && Py.eqb (end_ a) (end_ b).

(** Python dicts with string keys, as association lists (first binding of a
    key is the live one; [dict_set] keeps one binding per key). *)
Definition dict (V : Type) := list (str * V).

Fixpoint dict_get {V} (d : dict V) (k : str) : option V :=
  match d with
  | [] => None
  | (k', v) :: d' => if Py.eqb k' k then Some v else dict_get d' k
  end.

Fixpoint dict_set {V} (d : dict V) (k : str) (v : V) : dict V :=
  match d with
  | [] => [(k, v)]
  | (k', v') :: d' =>
      if Py.eqb k' k then (k', v) :: d' else (k', v') :: dict_set d' k v
  end.

(** [d.update(other)] *)
Definition dict_update {V} (d other : dict V) : dict V :=
  fold_left (fun acc kv => dict_set acc (fst kv) (snd kv)) other d.

Module CommentRegistry.

Definition hash_style := mk_style (lit "#") (lit "#") (lit "#").
Definition c_style := mk_style (lit "/*") (lit " *") (lit " */").
Definition html_style := mk_style (lit "<!--") (lit "  ") (lit "-->").
Definition vhdl_style := mk_style (lit "/*") (lit "") (lit "*/").
Definition slash_style := mk_style (lit "//") (lit "//") (lit "//").
Definition md_style := mk_style (lit "<!--") (lit "") (lit "-->").

Definition DEFAULT_MAPPINGS : dict comment_style :=
  [ (lit ".py", hash_style); (lit ".pyx", hash_style);
    (lit ".js", c_style); (lit ".ts", c_style);
    (lit ".jsx", c_style); (lit ".tsx", c_style);
    (lit ".java", c_style); (lit ".c", c_style); (lit ".cpp", c_style);
    (lit ".cc", c_style); (lit ".h", c_style); (lit ".hpp", c_style);
    (lit ".sh", hash_style); (lit ".bash", hash_style);
    (lit ".go", c_style);
    (lit ".rs", c_style);
    (lit ".css", c_style); (lit ".scss", c_style);
    (lit ".html", html_style); (lit ".xml", html_style);
    (lit ".yml", hash_style); (lit ".yaml", hash_style);
    (lit ".vhdl", vhdl_style); (lit ".vhd", vhdl_style);
    (lit ".v", slash_style); (lit ".sv", slash_style);
    (lit ".md", md_style);
    (lit ".hcl", hash_style); (lit ".tf", hash_style) ].

(** The registry object: its [mappings] attribute. *)
Record t := mk { mappings : dict comment_style }.

(** [CommentRegistry(custom_mappings)]; an empty dict is falsy. *)
Definition init (custom_mappings : option (dict comment_style)) : t :=
  match custom_mappings with
  | Some (kv :: more) => mk (dict_update DEFAULT_MAPPINGS (kv :: more))
  | _ => mk DEFAULT_MAPPINGS
  end.

(** The comment styles of the default table. *)
Definition registered (d : comment_style) : bool :=
  existsb (fun kv => style_eqb (snd kv) d) DEFAULT_MAPPINGS.

Section Lookup.
(** [suffix p] stands for pathlib's [Path(p).suffix], which is library
    code. *)
Variable suffix : str -> str.

Definition get_comment_style (r : t) (file_path : str)
  : option comment_style :=
  let ext := Py.lower (suffix file_path) in
  dict_get (mappings r) ext.
End Lookup.

End CommentRegistry.

(** A model of [PurePosixPath(p).suffix] (CPython 3.8 to 3.13): the final
    component is the last part of [p] between slashes that is neither empty
    nor ["."]; its suffix starts at its last dot, unless that dot is its first
    or its last character. *)
Module Pathlib.

Fixpoint split_slash (s : str) : list str :=
  match s with
  | [] => [[]]
  | c :: s' =>
      if Ascii.eqb c "/"%char then [] :: split_slash s'
      else match split_slash s' with
           | l :: ls => (c :: l) :: ls
           | [] => [[c]]
           end
  end.

Definition name (p : str) : str :=
  last (filter (fun c => negb (Py.eqb c [] || Py.eqb c (lit ".")))
               (split_slash p)) [].

(** [s.rfind(".")], [None] standing for -1. *)
Fixpoint rfind_dot (s : str) : option nat :=
  match s with
  | [] => None
  | c :: s' =>
      match rfind_dot s' with
      | Some i => Some (S i)
      | None => if Ascii.eqb c "."%char then Some 0 else None
      end
  end.

Definition suffix (p : str) : str :=
  let n := name p in
  match rfind_dot n with
  | Some i => if (0 <? i) && (i <? length n - 1) then skipn i n else []
  | None => []
  end.

End Pathlib.

(** ** Template formatting *)

(** [template.format(year=..., copyright_holder=...)].  The model covers
    literal text, the escapes [{{] and [}}], and replacement fields that are
    a bare name.  A field with a conversion, a format spec, an attribute or
    an index is outside the model ([FormatUnmodelled]). *)
Inductive format_result :=
| Formatted (s : str)
| FormatError        (* KeyError, IndexError or ValueError *)
| FormatUnmodelled.

Definition format_cons (c : ascii) (r : format_result) : format_result :=
  match r with
  | Formatted s => Formatted (c :: s)
  | other => other
  end.

Definition format_app (x : str) (r : format_result) : format_result :=
  match r with
  | Formatted s => Formatted (x ++ s)
  | other => other
  end.

Definition field_special (c : ascii) : bool :=
  existsb (Ascii.eqb c) (lit "!:.[{").

Definition field_value (year : nat) (copyright_holder : str) (name : str)
  : option str :=
  if Py.eqb name (lit "year") then Some (Py.str_of_nat year)
  else if Py.eqb name (lit "copyright_holder") then Some copyright_holder
  else None.

(** [field] is [Some acc] while inside a replacement field, [acc] holding
    the characters of the field name read so far, last one first. *)
Fixpoint format_scan (year : nat) (copyright_holder : str)
    (field : option str) (s : str) : format_result :=
  match field, s with
  | None, [] => Formatted []
  | None, c :: s' =>
      if Ascii.eqb c "{"%char then
        match s' with
        | c' :: s'' =>
            if Ascii.eqb c' "{"%char
            then format_cons "{"%char
                   (format_scan year copyright_holder None s'')
            else format_scan year copyright_holder (Some []) s'
        | [] => FormatError
        end
      else if Ascii.eqb c "}"%char then
        match s' with
        | c' :: s'' =>
            if Ascii.eqb c' "}"%char
            then format_cons "}"%char
                   (format_scan year copyright_holder None s'')
            else FormatError
        | [] => FormatError
        end
      else format_cons c (format_scan year copyright_holder None s')
  | Some acc, [] => FormatError
  | Some acc, c :: s' =>
      if Ascii.eqb c "}"%char then
        match field_value year copyright_holder (rev acc) with
        | Some v => format_app v (format_scan year copyright_holder None s')
        | None => FormatError
        end
      else if field_special c then FormatUnmodelled
      else format_scan year copyright_holder (Some (c :: acc)) s'
  end.

(** ** The header manager *)

Module LicenseHeaderManager.

Record t := mk {
  template_file : str;
  copyright_holder : str;
  comment_registry : CommentRegistry.t;
  current_year : nat
}.

Definition format_template (self : t) (template : str) : format_result :=
  format_scan (current_year self) (copyright_holder self) None template.

(** [f"{marker} {line}".rstrip()] *)
Definition comment_line (marker line : str) : str :=
  Py.rstrip (marker ++ SP :: line).

Definition create_header_comment (content : str) (cs : comment_style) : str :=
  let lines := Py.split_nl content in
  if Py.eqb (start cs) (middle cs) && Py.eqb (middle cs) (end_ cs) then
    Py.join_nl (map (comment_line (start cs)) lines)
  else
    Py.join_nl
      ([start cs] ++ map (comment_line (middle cs)) lines ++ [end_ cs]).

(** [lines and lines[0].startswith("#!")] *)
Definition has_shebang (lines : list str) : bool :=
  match lines with
  | l :: _ => Py.startswith l (lit "#!")
  | [] => false
  end.

(** [not line.strip()] *)
Definition blank (line : str) : bool := negb (Py.truthy (Py.strip line)).

(** [while start_idx < len(lines) and not lines[start_idx].strip():
       start_idx += 1], with [rest = lines[start_idx:]]. *)
Fixpoint skip_blank (rest : list str) (start_idx : nat) : nat :=
  match rest with
  | l :: rest' => if blank l then skip_blank rest' (S start_idx) else start_idx
  | [] => start_idx
  end.

(** The single-line collecting loop of [extract_existing_header], over
    [rest = lines[start_idx:]]. *)
Fixpoint collect_single (st : str) (rest : list str) : list str :=
  match rest with
  | l :: rest' =>
      let line := Py.strip l in
      if Py.startswith line st then line :: collect_single st rest'
      else if negb (Py.truthy line) then collect_single st rest'
      else []
  | [] => []
  end.

(** The multi-line collecting loop of [extract_existing_header]. *)
Fixpoint collect_multi (en : str) (rest : list str) : list str :=
  match rest with
  | l :: rest' =>
      let line := Py.strip l in
      if Py.contains en line then [l] else l :: collect_multi en rest'
  | [] => []
  end.

Definition extract_existing_header (file_content : str) (cs : comment_style)
  : option str :=
  let lines := Py.split_nl file_content in
  let start_idx := if has_shebang lines then 1 else 0 in
  let start_idx := skip_blank (skipn start_idx lines) start_idx in
  if length lines <=? start_idx then None
  else
    let first_line := Py.strip (nth start_idx lines []) in
    if Py.eqb (start cs) (middle cs) then
      if negb (Py.startswith first_line (start cs)) then None
      else
        let header_lines := collect_single (start cs) (skipn start_idx lines) in
        match header_lines with
        | [] => None
        | _ => Some (Py.join_nl header_lines)
        end
    else
      if negb (Py.startswith first_line (start cs)) then None
      else
        let header_lines := collect_multi (end_ cs) (skipn start_idx lines) in
        match header_lines with
        | [] => None
        | _ => Some (Py.join_nl header_lines)
        end.

(** The single-line loop of [_extract_header_content]. *)
Fixpoint content_single (st : str) (lines : list str) : list str :=
  match lines with
  | line :: rest =>
      let stripped := Py.strip line in
      if Py.startswith stripped st
      then Py.strip (Py.slice_from (length st) stripped)
             :: content_single st rest
      else content_single st rest
  | [] => []
  end.

(** The multi-line loop of [_extract_header_content]; [i] is the index of
    the head of [lines]. *)
Fixpoint content_multi (cs : comment_style) (i : nat) (lines : list str)
  : list str :=
  match lines with
  | line :: rest =>
      let stripped := Py.strip line in
      let mid := Py.strip (middle cs) in
      if (i =? 0) && Py.startswith stripped (start cs) then
        let content := Py.strip (Py.slice_from (length (start cs)) stripped) in
        if Py.truthy content then content :: content_multi cs (S i) rest
        else content_multi cs (S i) rest
      else if Py.endswith stripped (end_ cs) then
        let content :=
          Py.strip (Py.slice_to_neg (length (end_ cs)) stripped) in
        let content :=
          if Py.startswith content mid
          then Py.strip (Py.slice_from (length mid) content)
          else content in
        if Py.truthy content then [content] else []
      else if Py.startswith stripped mid then
        Py.strip (Py.slice_from (length mid) stripped)
          :: content_multi cs (S i) rest
      else content_multi cs (S i) rest
  | [] => []
  end.

Definition _extract_header_content (header : str) (cs : comment_style) : str :=
  let lines := Py.split_nl header in
  if Py.eqb (start cs) (middle cs)
  then Py.join_nl (content_single (start cs) lines)
  else Py.join_nl (content_multi cs 0 lines).

(** [for expected_line in header_lines: ...] of [remove_existing_header],
    with [rest = lines[header_end_idx:]]. *)
Fixpoint match_header (header_lines rest : list str) (header_end_idx : nat)
  : nat :=
  match header_lines with
  | expected_line :: more =>
      match rest with
      | l :: rest' =>
          if Py.eqb (Py.strip l) (Py.strip expected_line)
          then match_header more rest' (S header_end_idx)
          else header_end_idx
      | [] => header_end_idx
      end
  | [] => header_end_idx
  end.

(** [while start_idx < len(lines): line = lines[start_idx]; start_idx += 1;
       if end in line: break], with [rest = lines[start_idx:]]. *)
Fixpoint skip_block (en : str) (rest : list str) (start_idx : nat) : nat :=
  match rest with
  | line :: rest' =>
      if Py.contains en line then S start_idx
      else skip_block en rest' (S start_idx)
  | [] => start_idx
  end.

Definition remove_existing_header (file_content : str) (cs : comment_style)
  : str :=
  match extract_existing_header file_content cs with
  | None | Some [] => file_content
  | Some existing_header =>
      let lines := Py.split_nl file_content in
      let header_lines := Py.split_nl existing_header in
      let shebang := has_shebang lines in
      let preserved_lines := if shebang then [nth 0 lines []] else [] in
      let start_idx := if shebang then 1 else 0 in
      let start_idx := skip_blank (skipn start_idx lines) start_idx in
      if length lines <=? start_idx then file_content
      else
        let start_idx :=
          if Py.eqb (start cs) (middle cs) then
            let header_end_idx :=
              match_header header_lines (skipn start_idx lines) start_idx in
            skip_blank (skipn header_end_idx lines) header_end_idx
          else
            let first_line := Py.strip (nth start_idx lines []) in
            if Py.startswith first_line (start cs) then
              let start_idx :=
                skip_block (end_ cs) (skipn start_idx lines) start_idx in
              skip_blank (skipn start_idx lines) start_idx
            else start_idx in
        let remaining_lines :=
          if start_idx <? length lines then skipn start_idx lines else [] in
        Py.join_nl (preserved_lines ++ remaining_lines)
  end.

(** Lines 300 to 316 and 322 of [process_file]: the value of
    [remaining_content] when the new content is put together. *)
Definition remaining_content (cs : comment_style) (original_content : str)
  : str :=
  let content_without_header :=
    remove_existing_header original_content cs in
  let lines := Py.split_nl original_content in
  if has_shebang lines then
    let shebang := nth 0 lines [] in
    let remaining_content := content_without_header in
    let remaining_content :=
      if Py.startswith remaining_content shebang
      then Py.lstrip_nl (Py.slice_from (length shebang) remaining_content)
      else remaining_content in
    Py.lstrip_nl remaining_content
  else Py.lstrip_nl content_without_header.

(** Lines 295 to 326 of [process_file]: the new content computed from the
    formatted template and the original content. *)
Definition new_content (formatted_template : str) (cs : comment_style)
    (original_content : str) : str :=
  let new_header := create_header_comment formatted_template cs in
  let remaining_content := remaining_content cs original_content in
  let lines := Py.split_nl original_content in
  if has_shebang lines then
    let shebang := nth 0 lines [] in
    if Py.truthy remaining_content
    then shebang ++ NL :: new_header ++ NL :: remaining_content
    else shebang ++ NL :: new_header ++ [NL]
  else
    if Py.truthy remaining_content
    then new_header ++ NL :: remaining_content
    else new_header ++ [NL].

End LicenseHeaderManager.

(** ** Files and [process_file] *)

Definition CR : ascii := "013"%char.

(** Reading in text mode with universal newlines: ["\r\n"] and a lone
    ["\r"] come out as ["\n"]. *)
Fixpoint universal_newlines (raw : str) : str :=
  match raw with
  | [] => []
  | c :: rest =>
      if Ascii.eqb c CR then
        match rest with
        | c' :: rest' =>
            if Ascii.eqb c' NL then NL :: universal_newlines rest'
            else NL :: universal_newlines rest
        | [] => [NL]
        end
      else c :: universal_newlines rest
  end.

(** What a path of the store holds. *)
Inductive entry :=
| Text (raw : str)   (* a regular file with this text *)
| Directory          (* [open] raises [IsADirectoryError] *)
| Denied             (* a regular file, [open] raises [PermissionError] *)
| Undecodable.       (* a regular file, reading raises [UnicodeDecodeError] *)

(** What [open(path, "w")] followed by [f.write(text)] does at a path:
    it writes the text; or [open] raises and the file stays as it is; or
    [open] truncates the file and the write raises, [torn] being what the
    file then holds. *)
Inductive write_mode :=
| Writes
| OpenFails
| WriteFails (torn : str).

(** The file store. *)
Record world := mk_world {
  files : str -> option entry;
  write_mode_of : str -> write_mode
}.

Definition write_file (w : world) (p c : str) : world :=
  mk_world (fun q => if Py.eqb q p then Some (Text c) else files w q)
           (write_mode_of w).

(** [os.path.isfile(p)] *)
Definition isfile (w : world) (p : str) : bool :=
  match files w p with
  | Some (Text _) | Some Denied | Some Undecodable => true
  | Some Directory | None => false
  end.

(** Every [open] call, in order. *)
Inductive event :=
| OpenRead (p : str)
| OpenWrite (p : str).

Inductive exn :=
| FileNotFoundError
| IsADirectoryError
| PermissionError
| UnicodeDecodeError
| FormatException.     (* raised by [str.format] *)

Inductive outcome (A : Type) :=
| Returned (a : A)
| Raised (e : exn)
| Unmodelled.          (* a template outside the model of [str.format] *)

Arguments Returned {A} a.
Arguments Raised {A} e.
Arguments Unmodelled {A}.

(** [with open(p, encoding="utf-8") as f: f.read()] *)
Definition read_text (w : world) (p : str) : outcome str :=
  match files w p with
  | Some (Text raw) => Returned (universal_newlines raw)
  | Some Directory => Raised IsADirectoryError
  | Some Denied => Raised PermissionError
  | Some Undecodable => Raised UnicodeDecodeError
  | None => Raised FileNotFoundError
  end.

Definition is_write (e : event) : bool :=
  match e with OpenWrite _ => true | OpenRead _ => false end.

Section Hook.
Variable suffix : str -> str.

Import LicenseHeaderManager.

(** [load_template]: the template text, trimmed.  [FileNotFoundError] is
    caught and raised again with a message of its own; any other exception
    of the read leaves as it is. *)
Definition load_template (self : LicenseHeaderManager.t) (w : world)
  : outcome str :=
  match read_text w (template_file self) with
  | Returned raw => Returned (Py.strip raw)
  | Raised FileNotFoundError => Raised FileNotFoundError
  | Raised e => Raised e
  | Unmodelled => Unmodelled
  end.

Definition process_file (self : LicenseHeaderManager.t) (w : world)
    (file_path : str) : outcome bool * world * list event :=
  match CommentRegistry.get_comment_style suffix
          (comment_registry self) file_path with
  | None => (Returned false, w, [])
  | Some cs =>
      match read_text w file_path with
      | Returned original_content =>
          let tr := [OpenRead file_path; OpenRead (template_file self)] in
          match load_template self w with
          | Raised e => (Raised e, w, tr)
          | Unmodelled => (Unmodelled, w, tr)
          | Returned template =>
              match format_template self template with
              | FormatError => (Raised FormatException, w, tr)
              | FormatUnmodelled => (Unmodelled, w, tr)
              | Formatted formatted_template =>
                  let nc :=
                    new_content formatted_template cs original_content in
                  if negb (Py.eqb nc original_content) then
                    match write_mode_of w file_path with
                    | Writes =>
                        (Returned true, write_file w file_path nc,
                         tr ++ [OpenWrite file_path])
                    | OpenFails =>
                        (Returned false, w, tr ++ [OpenWrite file_path])
                    | WriteFails torn =>
                        (Returned false, write_file w file_path torn,
                         tr ++ [OpenWrite file_path])
                    end
                  else (Returned false, w, tr)
              end
          end
      | _ => (Returned false, w, [OpenRead file_path])
      end
  end.

(** The loop of [main] over [args.files]; [should_process] stands for
    [should_process_file] at the given patterns.  The result is the list
    [modified_files]. *)
Variable should_process : str -> bool.

Fixpoint main_loop (self : LicenseHeaderManager.t) (w : world)
    (paths : list str) : outcome (list str) * world * list event :=
  match paths with
  | [] => (Returned [], w, [])
  | file_path :: more =>
      if negb (isfile w file_path) then main_loop self w more
      else if negb (should_process file_path) then main_loop self w more
      else
        match process_file self w file_path with
        | (Returned b, w1, tr1) =>
            match main_loop self w1 more with
            | (Returned modified, w2, tr2) =>
                (Returned (if b then file_path :: modified
                           else modified), w2, tr1 ++ tr2)
            | (other, w2, tr2) => (other, w2, tr1 ++ tr2)
            end
        | (Raised e, w1, tr1) => (Raised e, w1, tr1)
        | (Unmodelled, w1, tr1) => (Unmodelled, w1, tr1)
        end
  end.
End Hook.

(** ** File selection and [main] *)

Section Cli.
(** [path_match p pattern] stands for pathlib's [Path(p).match(pattern)],
    which is library code. *)
Variable path_match : str -> str -> bool.
Variable suffix : str -> str.

(** [for pattern in patterns: if path.match(pattern): return ...]: whether
    the loop reaches its [return]. *)
Fixpoint any_match (file_path : str) (patterns : list str) : bool :=
  match patterns with
  | pattern :: more =>
      if path_match file_path pattern then true else any_match file_path more
  | [] => false
  end.

Definition should_process_file (file_path : str)
    (include_patterns exclude_patterns : list str) : bool :=
  if any_match file_path exclude_patterns then false
  else
    match include_patterns with
    | [] => true
    | _ => if any_match file_path include_patterns then true else false
    end.

(** [main], from the processing loop on, for a manager already built from
    the arguments: the exit code is 1 when [modified_files] is not empty. *)
Definition main (self : LicenseHeaderManager.t) (w : world)
    (paths include_patterns exclude_patterns : list str)
  : outcome nat * world * list event :=
  match main_loop suffix
          (fun p => should_process_file p include_patterns exclude_patterns)
          self w paths with
  | (Returned modified_files, w', tr) =>
      (Returned (match modified_files with [] => 0 | _ => 1 end), w', tr)
  | (Raised e, w', tr) => (Raised e, w', tr)
  | (Unmodelled, w', tr) => (Unmodelled, w', tr)
  end.
End Cli.

(** * Definitions for the statements *)

Module Defs.
Import Py LicenseHeaderManager.

Definition no_nl (l : str) : Prop := ~ In NL l.

Definition all_space (s : str) : Prop := Forall (fun c => isspace c = true) s.

(** The number of blank lines at the front of [rest]. *)
Fixpoint leading_blanks (rest : list str) : nat :=
  match rest with
  | l :: rest' => if blank l then S (leading_blanks rest') else 0
  | [] => 0
  end.

(** The value of [start_idx] once the shebang and the blank lines after it
    are skipped, as both [extract_existing_header] and
    [remove_existing_header] compute it. *)
Definition header_idx (lines : list str) : nat :=
  let start_idx := if has_shebang lines then 1 else 0 in
  skip_blank (skipn start_idx lines) start_idx.

(** What [remove_existing_header] keeps in front: the shebang line. *)
Definition shebang_of (lines : list str) : str :=
  if has_shebang lines then nth 0 lines [] else [].

Definition unterminated_example : str :=
  lit "#!/bin/sh" ++ NL :: NL :: lit "/* never closed" ++ NL :: lit "int x;".

(** [b] is the tail end of [s]. *)
Definition is_suffix (b s : str) : Prop := exists pre, s = pre ++ b.

(** The store holding exactly the files of an association list, every path
    writable. *)
Definition world_of (fs : dict str) : world :=
  mk_world (fun p => option_map Text (dict_get fs p)) (fun _ => Writes).

Definition default_registry : CommentRegistry.t := CommentRegistry.init None.

Definition template_path : str := lit "LICENSE_HEADER.txt".
Definition scenario_template : str :=
  lit "Copyright {year} {copyright_holder}".

Definition manager (holder : string) (year : nat) : LicenseHeaderManager.t :=
  LicenseHeaderManager.mk template_path (lit holder) default_registry year.

Definition shebang_example : world :=
  world_of [ (lit "run.sh",
              lit "#!/bin/sh" ++ NL :: NL :: lit "echo hi" ++ [NL]);
             (template_path, scenario_template) ].

Definition missing_template_example : world :=
  world_of [ (lit "a.py", lit "x = 1" ++ [NL]) ].

Definition hi_py : str := lit "hi.py".
Definition hi_before : str := lit "print('hi')" ++ [NL].
Definition hi_after : str :=
  lit "# Copyright 2024 Acme" ++ NL :: lit "print('hi')" ++ [NL].

Definition hi_world : world :=
  world_of [ (hi_py, hi_before); (template_path, scenario_template) ].

Definition body_js : str := lit "body.js".
Definition body_before : str :=
  lit "/*" ++ NL :: lit " * Copyright 2020 Old" ++ NL :: lit " */"
    ++ NL :: lit "body();" ++ [NL].
Definition body_after : str :=
  lit "/*" ++ NL :: lit " * Copyright 2025 Acme" ++ NL :: lit " */"
    ++ NL :: lit "body();" ++ [NL].

Definition body_world : world :=
  world_of [ (body_js, body_before); (template_path, scenario_template) ].

(** A marker without surrounding white space and without a newline. *)
Definition plain_marker (m : str) : Prop :=
  m <> [] /\ rstrip m = m /\ lstrip m = m /\ no_nl m.

(** A wrapped line cannot pass for a shebang line. *)
Definition not_shebang (m : str) : Prop :=
  startswith (m ++ [SP]) (lit "#!") = false.

(** Multi-line styles whose middle marker is white space only. *)
Record blank_middle (cs : comment_style) : Prop := {
  bm_start : plain_marker (start cs);
  bm_start_sb : startswith (start cs) (lit "#!") = false;
  bm_mode : eqb (start cs) (middle cs) = false;
  bm_middle : all_space (middle cs);
  bm_middle_nl : no_nl (middle cs);
  bm_end : end_ cs <> [];
  bm_end_strip : strip (end_ cs) = end_ cs;
  bm_end_nl : no_nl (end_ cs);
  bm_start_end : contains (end_ cs) (start cs) = false
}.

Definition indented_text : str := lit "a" ++ NL :: lit "  b  ".

(** Equality up to white space at the end of lines. *)
Definition same_modulo_trailing (a b : str) : Prop :=
  map rstrip (split_nl a) = map rstrip (split_nl b).

(** The body may follow a fresh header without being taken for part of it:
    it is empty, or its first line is not blank and, in single-line mode, is
    no comment line. *)
Definition body_ok (cs : comment_style) (B : str) : bool :=
  match B with
  | [] => true
  | _ =>
      let l := nth 0 (split_nl B) [] in
      negb (blank l)
      && (if eqb (start cs) (middle cs)
          then negb (startswith (strip l) (start cs))
          else true)
  end.

(** In multi-line mode no wrapped line of the text contains the end
    marker. *)
Definition header_ok (cs : comment_style) (T : str) : bool :=
  if eqb (start cs) (middle cs) then true
  else forallb (fun l => negb (contains (end_ cs) (comment_line (middle cs) l)))
         (split_nl T).

Definition settled (cs : comment_style) (T C : str) : bool :=
  header_ok cs T && body_ok cs (remaining_content cs C).

(** The new content, put together from the optional shebang line, the
    header and the body. *)
Definition assembled (sbo : option str) (H B : str) : str :=
  match sbo with
  | Some sb => sb ++ NL :: H ++ NL :: B
  | None => H ++ NL :: B
  end.

Definition pre_lines (sbo : option str) : list str :=
  match sbo with Some sb => [sb] | None => [] end.

(** A shebang line: one line that starts with ["#!"]. *)
Definition shebang_line (sbo : option str) : Prop :=
  match sbo with
  | Some sb => no_nl sb /\ startswith sb (lit "#!") = true
  | None => True
  end.

(** The part of [remove_existing_header] that runs once a header is
    found. *)
Definition removal_of (existing_header file_content : str)
    (cs : comment_style) : str :=
  let lines := split_nl file_content in
  let header_lines := split_nl existing_header in
  let shebang := has_shebang lines in
  let preserved_lines := if shebang then [nth 0 lines []] else [] in
  let start_idx := if shebang then 1 else 0 in
  let start_idx := skip_blank (skipn start_idx lines) start_idx in
  if length lines <=? start_idx then file_content
  else
    let start_idx :=
      if eqb (start cs) (middle cs) then
        let header_end_idx :=
          match_header header_lines (skipn start_idx lines) start_idx in
        skip_blank (skipn header_end_idx lines) header_end_idx
      else
        let first_line := strip (nth start_idx lines []) in
        if startswith first_line (start cs) then
          let start_idx :=
            skip_block (end_ cs) (skipn start_idx lines) start_idx in
          skip_blank (skipn start_idx lines) start_idx
        else start_idx in
    let remaining_lines :=
      if start_idx <? length lines then skipn start_idx lines else [] in
    join_nl (preserved_lines ++ remaining_lines).

(** What is left of the body lines once the blank ones in front are
    skipped, for a body that is [body_ok]. *)
Definition body_lines (B : str) : list str :=
  match B with [] => [] | _ => split_nl B end.

(** What the multi-line argument needs of a style. *)
Record block_style (cs : comment_style) : Prop := {
  bs_start : plain_marker (start cs);
  bs_start_sb : startswith (start cs) (lit "#!") = false;
  bs_mode : eqb (start cs) (middle cs) = false;
  bs_middle_nl : no_nl (middle cs);
  bs_end_nl : no_nl (end_ cs);
  bs_start_end : contains (end_ cs) (start cs) = false
}.

Definition spaced_py : str := lit "spaced.py".
Definition spaced_before : str := lit "  " ++ NL :: lit "code" ++ [NL].
Definition spaced_once : str :=
  lit "# Notice" ++ NL :: lit "  " ++ NL :: lit "code" ++ [NL].
Definition spaced_twice : str := lit "# Notice" ++ NL :: lit "code" ++ [NL].

Definition spaced_world : world :=
  world_of [ (spaced_py, spaced_before); (template_path, lit "Notice") ].

(** A manager whose copyright holder contains a carriage return. *)
Definition cr_manager : LicenseHeaderManager.t :=
  LicenseHeaderManager.mk template_path (lit "A" ++ CR :: lit "B")
    default_registry 2024.

Definition split_header : str :=
  lit "# a" ++ NL :: NL :: lit "# b" ++ NL :: lit "code" ++ [NL].

(** A file that [process_file] gets as far as reading: it has a comment
    style and reading it succeeds. *)
Definition reaches_template (suffix : str -> str)
    (self : LicenseHeaderManager.t) (w : world) (file_path : str) : bool :=
  match CommentRegistry.get_comment_style suffix (comment_registry self)
          file_path, read_text w file_path with
  | Some _, Returned _ => true
  | _, _ => false
  end.

End Defs.

(** Definitions for the further properties. *)
Module MoreDefs.
Import Py LicenseHeaderManager Defs.

(** Every way [process_file] can end. *)
Inductive run_shape (w : world) (file_path template : str)
  : outcome bool * world * list event -> Prop :=
| shape_skipped :
    run_shape w file_path template (Returned false, w, [])
| shape_unreadable :
    (forall C, read_text w file_path <> Returned C) ->
    run_shape w file_path template (Returned false, w, [OpenRead file_path])
| shape_stopped (C : str) (r : outcome bool) :
    read_text w file_path = Returned C ->
    r <> Returned true ->
    run_shape w file_path template
      (r, w, [OpenRead file_path; OpenRead template])
| shape_open_failed (C nc : str) :
    read_text w file_path = Returned C -> nc <> C ->
    write_mode_of w file_path = OpenFails ->
    run_shape w file_path template
      (Returned false, w,
       [OpenRead file_path; OpenRead template; OpenWrite file_path])
| shape_write_failed (C nc torn : str) :
    read_text w file_path = Returned C -> nc <> C ->
    write_mode_of w file_path = WriteFails torn ->
    run_shape w file_path template
      (Returned false, write_file w file_path torn,
       [OpenRead file_path; OpenRead template; OpenWrite file_path])
| shape_written (C nc : str) :
    read_text w file_path = Returned C -> nc <> C ->
    write_mode_of w file_path = Writes ->
    run_shape w file_path template
      (Returned true, write_file w file_path nc,
       [OpenRead file_path; OpenRead template; OpenWrite file_path]).

(** A file of [w'] is as it was in [w], or holds what a failed write left
    in it. *)
Definition same_or_torn (w w' : world) (q : str) : Prop :=
  files w' q = files w q
  \/ exists torn, write_mode_of w q = WriteFails torn
                  /\ files w' q = Some (Text torn).

(** What a run of the loop of [main] from the store [w] over [paths] may
    have done when it ends in [res]. *)
Definition loop_ok (should_process : str -> bool) (w : world)
    (paths : list str) (res : outcome (list str) * world * list event)
  : Prop :=
  (forall q, ~ In q paths -> files (snd (fst res)) q = files w q)
  /\ (forall q, files (snd (fst res)) q = None <-> files w q = None)
  /\ (forall q, isfile (snd (fst res)) q = isfile w q)
  /\ write_mode_of (snd (fst res)) = write_mode_of w
  /\ (forall q, In (OpenWrite q) (snd res) -> In q paths)
  /\ (forall modified, fst (fst res) = Returned modified ->
        (forall p, In p modified ->
           In p paths /\ should_process p = true /\ isfile w p = true
           /\ write_mode_of w p = Writes
           /\ In (OpenWrite p) (snd res))
        /\ (modified = [] -> forall q, same_or_torn w (snd (fst res)) q)).

(** [rest] without the blank lines at its front. *)
Definition drop_blank (rest : list str) : list str :=
  skipn (leading_blanks rest) rest.

(** The lines that [remove_existing_header] keeps in front. *)
Definition kept_shebang (lines : list str) : list str :=
  if has_shebang lines then [nth 0 lines []] else [].

End MoreDefs.

(** * Properties *)

(** ** Strings *)

Module PyFacts.
Import Defs.
Import Py.

Lemma eqb_eq (s t : str) : eqb s t = true <-> s = t.
Proof.
  revert t; induction s as [|a s IH]; intros [|b t]; simpl;
    try (split; [discriminate | congruence]); try tauto.
  rewrite andb_true_iff, Ascii.eqb_eq, IH.
  split; [intros [-> ->]; reflexivity | intros E; inversion E; auto].
Qed.

Lemma eqb_refl (s : str) : eqb s s = true.
Proof. apply eqb_eq; reflexivity. Qed.

Lemma eqb_neq (s t : str) : eqb s t = false <-> s <> t.
Proof.
  rewrite <- eqb_eq. destruct (eqb s t); split; congruence.
Qed.

Lemma startswith_app (p s : str) : startswith (p ++ s) p = true.
Proof.
  induction p as [|a p IH]; simpl; [reflexivity|].
  now rewrite Ascii.eqb_refl, IH.
Qed.

Lemma startswith_refl (p : str) : startswith p p = true.
Proof. rewrite <- (app_nil_r p) at 1. apply startswith_app. Qed.

Lemma startswith_inv (s p : str) :
  startswith s p = true -> exists r, s = p ++ r.
Proof.
  revert s; induction p as [|a p IH]; intros s; simpl.
  - exists s; reflexivity.
  - destruct s as [|b s]; [discriminate|].
    rewrite andb_true_iff, Ascii.eqb_eq. intros [-> H].
    destruct (IH _ H) as [r ->]. exists r; reflexivity.
Qed.

Lemma contains_refl (p : str) : contains p p = true.
Proof. destruct p; simpl; rewrite ?Ascii.eqb_refl, ?startswith_refl; auto. Qed.

(** *** Lines *)

Lemma split_nl_not_nil (s : str) : split_nl s <> [].
Proof.
  destruct s as [|c s]; simpl; [discriminate|].
  destruct (Ascii.eqb c NL); [discriminate|].
  destruct (split_nl s); discriminate.
Qed.

Lemma split_nl_cons (c : ascii) (s : str) :
  c <> NL ->
  split_nl (c :: s) = (c :: hd [] (split_nl s)) :: tl (split_nl s).
Proof.
  intros H. simpl. apply Ascii.eqb_neq in H. rewrite H.
  pose proof (split_nl_not_nil s).
  destruct (split_nl s); [congruence | reflexivity].
Qed.

Lemma join_nl_cons (l : str) (ls : list str) :
  ls <> [] -> join_nl (l :: ls) = l ++ NL :: join_nl ls.
Proof. destruct ls; [congruence | reflexivity]. Qed.

Lemma join_split (s : str) : join_nl (split_nl s) = s.
Proof.
  induction s as [|c s IH]; [reflexivity|].
  simpl split_nl. destruct (Ascii.eqb_spec c NL) as [->|_].
  - rewrite join_nl_cons by apply split_nl_not_nil. now rewrite IH.
  - pose proof (split_nl_not_nil s) as Hn.
    destruct (split_nl s) as [|l ls]; [congruence|].
    destruct ls as [|l' ls]; simpl in *; now rewrite IH.
Qed.

Lemma split_nl_app (a b : str) :
  split_nl (a ++ NL :: b) = removelast (split_nl a)
                             ++ (last (split_nl a) []) :: split_nl b.
Proof.
  induction a as [|c a IH]; simpl.
  - reflexivity.
  - destruct (Ascii.eqb c NL) eqn:E.
    + rewrite IH. pose proof (split_nl_not_nil a).
      destruct (split_nl a); [congruence | reflexivity].
    + rewrite IH. pose proof (split_nl_not_nil a) as Hn.
      destruct (split_nl a) as [|l ls]; [congruence|].
      destruct ls; reflexivity.
Qed.

Lemma split_no_nl (l : str) : no_nl l -> split_nl l = [l].
Proof.
  unfold no_nl. induction l as [|c l IH]; [reflexivity|].
  intros H. rewrite split_nl_cons by (intros ->; apply H; now left).
  rewrite IH by (intros H'; apply H; now right). reflexivity.
Qed.

Lemma split_line_app (l b : str) :
  no_nl l -> split_nl (l ++ NL :: b) = l :: split_nl b.
Proof.
  intros H. rewrite split_nl_app, (split_no_nl _ H). reflexivity.
Qed.

Lemma split_nl_no_nl (s : str) : Forall no_nl (split_nl s).
Proof.
  induction s as [|c s IH]; simpl.
  - constructor; [intros [] | constructor].
  - destruct (Ascii.eqb_spec c NL) as [->|Hc].
    + constructor; [intros [] | exact IH].
    + destruct (split_nl s) as [|l ls]; inversion IH; subst.
      * constructor; [|constructor]. intros [E|[]]; congruence.
      * constructor; [|assumption]. intros [E|E]; [congruence|]. auto.
Qed.

Lemma split_join (ls : list str) :
  ls <> [] -> Forall no_nl ls -> split_nl (join_nl ls) = ls.
Proof.
  induction ls as [|l ls IH]; [congruence|]. intros _ H.
  inversion H as [|? ? Hl Hls]; subst.
  destruct ls as [|l' ls].
  - simpl. now apply split_no_nl.
  - rewrite join_nl_cons by discriminate.
    rewrite split_line_app by assumption.
    rewrite IH by (assumption || discriminate). reflexivity.
Qed.

Lemma hd_split_line (l b : str) :
  no_nl l -> nth 0 (split_nl (l ++ NL :: b)) [] = l.
Proof. intros H. now rewrite split_line_app. Qed.

Lemma nth0_split_no_nl (s : str) : no_nl (nth 0 (split_nl s) []).
Proof.
  pose proof (split_nl_no_nl s) as H.
  destruct (split_nl s); simpl; [intros [] | now inversion H].
Qed.

End PyFacts.

Module StripFacts.
Import Defs.
Import Py PyFacts.

Lemma lstrip_suffix (s : str) :
  exists t, s = t ++ lstrip s /\ all_space t.
Proof.
  induction s as [|c s [t [E Ht]]]; simpl.
  - exists []; split; [reflexivity | constructor].
  - destruct (isspace c) eqn:Hc.
    + exists (c :: t); split; [simpl; congruence | now constructor].
    + exists []; split; [reflexivity | constructor].
Qed.

Lemma rstrip_prefix (s : str) :
  exists t, s = rstrip s ++ t /\ all_space t.
Proof.
  induction s as [|c s [t [E Ht]]]; simpl.
  - exists []; split; [reflexivity | constructor].
  - destruct (rstrip s) as [|r rs] eqn:Hr.
    + simpl in E; subst t. destruct (isspace c) eqn:Hc.
      * exists (c :: s); split; [reflexivity | now constructor].
      * exists s; split; [reflexivity | assumption].
    + exists t; split; [simpl in *; congruence | assumption].
Qed.

Lemma startswith_app_l (a b p : str) :
  startswith a p = true -> startswith (a ++ b) p = true.
Proof.
  intros H. destruct (startswith_inv _ _ H) as [r ->].
  rewrite <- app_assoc. apply startswith_app.
Qed.

Lemma contains_app_l (p a b : str) :
  contains p a = true -> contains p (a ++ b) = true.
Proof.
  induction a as [|c a IH]; simpl.
  - rewrite orb_false_r. intros H. destruct p; [|discriminate].
    destruct b; reflexivity.
  - rewrite !orb_true_iff. intros [H|H]; [left | right; auto].
    now apply (startswith_app_l (c :: a) b p).
Qed.

Lemma contains_app_r (p a b : str) :
  contains p b = true -> contains p (a ++ b) = true.
Proof.
  intros H. induction a as [|c a IH]; simpl; [assumption|].
  rewrite IH. apply orb_true_r.
Qed.

Lemma contains_strip (p l : str) :
  contains p (strip l) = true -> contains p l = true.
Proof.
  unfold strip. intros H.
  destruct (rstrip_prefix l) as [t [E _]].
  destruct (lstrip_suffix (rstrip l)) as [u [E' _]].
  rewrite E, E'. apply contains_app_l, contains_app_r, H.
Qed.

End StripFacts.

Module LoopFacts.
Import Defs.
Import Py PyFacts StripFacts LicenseHeaderManager.

Lemma skip_blank_eq (rest : list str) (i : nat) :
  skip_blank rest i = i + leading_blanks rest.
Proof.
  revert i; induction rest as [|l rest IH]; intros i; simpl; [lia|].
  destruct (blank l); [rewrite IH|]; lia.
Qed.

Lemma leading_blanks_stop (rest : list str) :
  leading_blanks rest < length rest ->
  blank (nth (leading_blanks rest) rest []) = false.
Proof.
  induction rest as [|l rest IH]; simpl; [lia|].
  destruct (blank l) eqn:E; [intros; apply IH; lia | now intros].
Qed.

Lemma nth_skipn {A} (k i : nat) (l : list A) (d : A) :
  nth k (skipn i l) d = nth (i + k) l d.
Proof.
  revert l; induction i as [|i IH]; intros [|x l]; simpl; auto.
  destruct k; reflexivity.
Qed.

Lemma skipn_add {A} (i k : nat) (l : list A) :
  skipn (i + k) l = skipn k (skipn i l).
Proof.
  revert l; induction i as [|i IH]; intros [|x l]; simpl; auto.
  now rewrite skipn_nil.
Qed.

Lemma skip_block_none (en : str) (rest : list str) (i : nat) :
  Forall (fun l => contains en l = false) rest ->
  skip_block en rest i = i + length rest.
Proof.
  intros H; revert i; induction H as [|l rest Hl _ IH]; intros i; simpl.
  - lia.
  - rewrite Hl, IH. lia.
Qed.

Lemma collect_multi_cons (en l : str) (rest : list str) :
  exists more, collect_multi en (l :: rest) = l :: more.
Proof.
  simpl. destruct (contains en (strip l)); eauto.
Qed.

Lemma join_nl_not_nil (l : str) (ls : list str) :
  l <> [] -> join_nl (l :: ls) <> [].
Proof.
  intros H. destruct ls; simpl; [assumption|].
  destruct l; [congruence | discriminate].
Qed.

Lemma Forall_skipn {A} (P : A -> Prop) (n : nat) (l : list A) :
  Forall P l -> Forall P (skipn n l).
Proof.
  intros H; revert n; induction H; intros [|n]; simpl; auto.
Qed.

End LoopFacts.

(** ** Detection and removal *)

Module HeaderFacts.
Import Defs.
Import Py PyFacts StripFacts LoopFacts LicenseHeaderManager.

Lemma skipn_nth_cons {A} (i : nat) (l : list A) (d : A) :
  i < length l -> skipn i l = nth i l d :: skipn (S i) l.
Proof.
  revert l; induction i as [|i IH]; intros [|x l]; simpl; try lia.
  - reflexivity.
  - intros H. apply IH. lia.
Qed.

Lemma header_idx_nonblank (lines : list str) :
  header_idx lines < length lines ->
  blank (nth (header_idx lines) lines []) = false.
Proof.
  unfold header_idx. set (s := if has_shebang lines then 1 else 0).
  rewrite skip_blank_eq. intros H.
  rewrite <- nth_skipn. apply leading_blanks_stop.
  rewrite length_skipn. lia.
Qed.

Lemma blank_false_not_nil (l : str) : blank l = false -> l <> [].
Proof. intros H ->. discriminate. Qed.

(** In multi-line mode a header is found as soon as the first line that is
    not blank starts with the start marker. *)
Lemma extract_multi_found (C : str) (cs : comment_style) :
  let lines := split_nl C in
  eqb (start cs) (middle cs) = false ->
  header_idx lines < length lines ->
  startswith (strip (nth (header_idx lines) lines [])) (start cs) = true ->
  exists c h, extract_existing_header C cs = Some (c :: h).
Proof.
  intros lines Hm Hlt Hst. unfold extract_existing_header.
  fold lines. fold (header_idx lines).
  apply Nat.leb_gt in Hlt as Hlt'. rewrite Hlt', Hm, Hst. simpl negb. cbv iota.
  rewrite (skipn_nth_cons _ _ ([] : str) Hlt).
  destruct (collect_multi_cons (end_ cs) (nth (header_idx lines) lines [])
              (skipn (S (header_idx lines)) lines)) as [more ->].
  pose proof (blank_false_not_nil _ (header_idx_nonblank _ Hlt)) as Hne.
  pose proof (join_nl_not_nil _ more Hne) as Hj.
  destruct (join_nl _) as [|c h]; [congruence | eauto].
Qed.

End HeaderFacts.

Module Unterminated.
Import Defs.
Import Py PyFacts StripFacts LoopFacts LicenseHeaderManager HeaderFacts.

Lemma remove_unterminated (C : str) (cs : comment_style) :
  let lines := split_nl C in
  eqb (start cs) (middle cs) = false ->
  header_idx lines < length lines ->
  startswith (strip (nth (header_idx lines) lines [])) (start cs) = true ->
  Forall (fun l => contains (end_ cs) l = false) lines ->
  remove_existing_header C cs = shebang_of lines.
Proof.
  intros lines Hm Hlt Hst Hno.
  destruct (extract_multi_found C cs Hm Hlt Hst) as [c [h E]].
  unfold remove_existing_header. rewrite E. fold lines. fold (header_idx lines).
  apply Nat.leb_gt in Hlt as Hlt'. rewrite Hlt', Hm, Hst.
  rewrite (skip_block_none _ _ _ (Forall_skipn _ (header_idx lines) _ Hno)).
  rewrite length_skipn.
  replace (header_idx lines + (length lines - header_idx lines))
    with (length lines) by lia.
  rewrite skipn_all. simpl skip_blank. rewrite Nat.ltb_irrefl, app_nil_r.
  unfold shebang_of. destruct (has_shebang lines); reflexivity.
Qed.

Lemma collect_multi_none (en : str) (rest : list str) :
  Forall (fun l => contains en l = false) rest ->
  collect_multi en rest = rest.
Proof.
  induction 1 as [|l rest Hl _ IH]; simpl; [reflexivity|].
  destruct (contains en (strip l)) eqn:E.
  - apply contains_strip in E. congruence.
  - now rewrite IH.
Qed.

Lemma extract_unterminated (C : str) (cs : comment_style) :
  let lines := split_nl C in
  eqb (start cs) (middle cs) = false ->
  header_idx lines < length lines ->
  startswith (strip (nth (header_idx lines) lines [])) (start cs) = true ->
  Forall (fun l => contains (end_ cs) l = false) lines ->
  extract_existing_header C cs
    = Some (join_nl (skipn (header_idx lines) lines)).
Proof.
  intros lines Hm Hlt Hst Hno. unfold extract_existing_header.
  fold lines. fold (header_idx lines).
  apply Nat.leb_gt in Hlt as Hlt'. rewrite Hlt', Hm, Hst. simpl negb. cbv iota.
  rewrite collect_multi_none by now apply Forall_skipn.
  rewrite (skipn_nth_cons _ _ ([] : str) Hlt). reflexivity.
Qed.

(** C10: in multi-line mode ([start != middle]), when the first line that is
    not blank after the optional shebang starts (once trimmed) with the start
    marker and no line of the file contains the end marker, detection returns
    every line from there to the end of the file, removal keeps nothing but
    the shebang line, and the new content is the shebang line (if any), the
    new header and a newline. *)
Theorem unterminated_block_consumes_file
    (T C : str) (cs : comment_style) :
  let lines := split_nl C in
  eqb (start cs) (middle cs) = false ->
  header_idx lines < length lines ->
  startswith (strip (nth (header_idx lines) lines [])) (start cs) = true ->
  Forall (fun l => contains (end_ cs) l = false) lines ->
  extract_existing_header C cs
    = Some (join_nl (skipn (header_idx lines) lines)) /\
  remove_existing_header C cs = shebang_of lines /\
  new_content T cs C =
    if has_shebang lines
    then nth 0 lines [] ++ NL :: create_header_comment T cs ++ [NL]
    else create_header_comment T cs ++ [NL].
Proof.
  intros lines Hm Hlt Hst Hno.
  pose proof (remove_unterminated C cs Hm Hlt Hst Hno) as R. fold lines in R.
  split; [now apply extract_unterminated|].
  split; [exact R|].
  unfold new_content, remaining_content. fold lines. rewrite R.
  unfold shebang_of. destruct (has_shebang lines).
  - rewrite startswith_refl. unfold slice_from. rewrite skipn_all.
    reflexivity.
  - reflexivity.
Qed.

Lemma unterminated_block_consumes_file_witness :
  extract_existing_header unterminated_example CommentRegistry.c_style
    = Some (lit "/* never closed" ++ NL :: lit "int x;") /\
  remove_existing_header unterminated_example CommentRegistry.c_style
    = lit "#!/bin/sh" /\
  new_content (lit "Copyright") CommentRegistry.c_style unterminated_example
    = lit "#!/bin/sh" ++ NL :: lit "/*" ++ NL :: lit " * Copyright"
        ++ NL :: lit " */" ++ [NL].
Proof.
  apply (unterminated_block_consumes_file (lit "Copyright")
           unterminated_example CommentRegistry.c_style).
  - reflexivity.
  - vm_compute. lia.
  - reflexivity.
  - vm_compute. repeat constructor.
Defined.

End Unterminated.

(** ** What removal leaves *)

Module BodyFacts.
Import Defs.
Import Py PyFacts StripFacts LoopFacts LicenseHeaderManager HeaderFacts.

Lemma is_suffix_refl (s : str) : is_suffix s s.
Proof. exists []; reflexivity. Qed.

Lemma is_suffix_trans (a b c : str) :
  is_suffix a b -> is_suffix b c -> is_suffix a c.
Proof.
  intros [p ->] [q ->]. exists (q ++ p). now rewrite app_assoc.
Qed.

Lemma is_suffix_app (p s : str) : is_suffix s (p ++ s).
Proof. now exists p. Qed.

Lemma is_suffix_nil (s : str) : is_suffix [] s.
Proof. exists s. now rewrite app_nil_r. Qed.

Lemma lstrip_nl_suffix (s : str) : is_suffix (lstrip_nl s) s.
Proof.
  induction s as [|c s IH]; simpl; [apply is_suffix_refl|].
  destruct (Ascii.eqb c NL); [|apply is_suffix_refl].
  eapply is_suffix_trans; [exact IH | apply (is_suffix_app [c])].
Qed.

Lemma skipn_suffix (n : nat) (s : str) : is_suffix (skipn n s) s.
Proof.
  exists (firstn n s). now rewrite firstn_skipn.
Qed.

Lemma join_skipn_suffix (k : nat) (ls : list str) :
  is_suffix (join_nl (skipn k ls)) (join_nl ls).
Proof.
  revert k; induction ls as [|l ls IH]; intros [|k]; simpl skipn;
    try apply is_suffix_refl.
  destruct ls as [|l' ls].
  - rewrite skipn_nil. apply is_suffix_nil.
  - rewrite (join_nl_cons l) by discriminate.
    eapply is_suffix_trans; [apply IH|].
    exists (l ++ [NL]); now rewrite <- app_assoc.
Qed.

(** [remove_existing_header] returns its input, or the preserved shebang
    line followed by the lines from some index on. *)
Lemma remove_shape (C : str) (cs : comment_style) :
  let lines := split_nl C in
  let s := if has_shebang lines then 1 else 0 in
  remove_existing_header C cs = C \/
  exists k, s <= k /\
    remove_existing_header C cs =
      join_nl ((if has_shebang lines then [nth 0 lines []] else [])
               ++ skipn k lines).
Proof.
  intros lines s. unfold remove_existing_header. fold lines.
  destruct (extract_existing_header C cs) as [[|c h]|]; auto.
  fold s. set (i := skip_blank (skipn s lines) s).
  assert (Hi : s <= i) by (unfold i; rewrite skip_blank_eq; lia).
  destruct (length lines <=? i); auto.
  right.
  match goal with
  | |- context [if ?e <? length lines then _ else _] => set (k := e)
  end.
  assert (Hk : s <= k).
  { unfold k. destruct (eqb (start cs) (middle cs)).
    - rewrite skip_blank_eq.
      assert (forall hs rest j, j <= match_header hs rest j) as M.
      { induction hs as [|e hs IH]; intros [|l rest] j; simpl; auto.
        destruct (eqb _ _); [|auto]. specialize (IH rest (S j)). lia. }
      specialize (M (split_nl (c :: h)) (skipn i lines) i). lia.
    - destruct (startswith _ _); [|assumption].
      rewrite skip_blank_eq.
      assert (forall en rest j, j <= skip_block en rest j) as M.
      { intros en rest; induction rest as [|l rest IH]; intros j; simpl; auto.
        destruct (contains en l); [lia|]. specialize (IH (S j)). lia. }
      specialize (M (end_ cs) (skipn i lines) i). lia. }
  exists k; split; [assumption|].
  destruct (k <? length lines) eqn:E; [reflexivity|].
  apply Nat.ltb_ge in E. now rewrite skipn_all2.
Qed.

(** With a shebang, what removal returns still starts with it. *)
Lemma startswith_join_cons (l : str) (ls : list str) :
  startswith (join_nl (l :: ls)) l = true.
Proof.
  destruct ls; [apply startswith_refl|].
  rewrite join_nl_cons by discriminate. apply startswith_app.
Qed.

Lemma lstrip_nl_NL (s : str) : lstrip_nl (NL :: s) = lstrip_nl s.
Proof. reflexivity. Qed.

Lemma skipn_length_app (a b : str) : skipn (length a) (a ++ b) = b.
Proof. induction a; simpl; auto. Qed.

(** The body that [process_file] puts after the new header is a tail end
    of the original content. *)
Lemma remaining_content_suffix (C : str) (cs : comment_style) :
  is_suffix (remaining_content cs C) C.
Proof.
  unfold remaining_content.
  pose proof (remove_shape C cs) as R. cbv zeta in R.
  pose proof (join_split C) as J.
  pose proof (split_nl_not_nil C) as Hne.
  destruct (split_nl C) as [|sb rest] eqn:El; [congruence|].
  destruct (has_shebang (sb :: rest)) eqn:Hs; simpl nth.
  - destruct R as [-> | [k [Hk ->]]].
    + rewrite <- J at 1. rewrite startswith_join_cons.
      eapply is_suffix_trans; [apply lstrip_nl_suffix|].
      eapply is_suffix_trans; [apply lstrip_nl_suffix|].
      apply skipn_suffix.
    + destruct k as [|k]; [lia|]. simpl skipn. simpl app.
      rewrite startswith_join_cons. unfold slice_from.
      destruct (skipn k rest) as [|x xs] eqn:Ek.
      * simpl join_nl. rewrite skipn_all. apply is_suffix_nil.
      * rewrite join_nl_cons by discriminate. rewrite skipn_length_app.
        rewrite lstrip_nl_NL.
        eapply is_suffix_trans; [apply lstrip_nl_suffix|].
        eapply is_suffix_trans; [apply lstrip_nl_suffix|].
        rewrite <- Ek. rewrite <- J.
        destruct rest as [|r rest']; [now rewrite skipn_nil in Ek|].
        rewrite (join_nl_cons sb) by discriminate.
        eapply is_suffix_trans; [apply join_skipn_suffix|].
        exists (sb ++ [NL]); now rewrite <- app_assoc.
  - destruct R as [-> | [k [_ ->]]].
    + apply lstrip_nl_suffix.
    + eapply is_suffix_trans; [apply lstrip_nl_suffix|].
      simpl app. rewrite <- J. apply join_skipn_suffix.
Qed.

End BodyFacts.

(** ** Wrapping *)

Module WrapFacts.
Import Defs.
Import Py PyFacts StripFacts LicenseHeaderManager.

Lemma rstrip_no_nl (s : str) : no_nl s -> no_nl (rstrip s).
Proof.
  unfold no_nl. intros H Hin. apply H.
  destruct (rstrip_prefix s) as [t [E _]]. rewrite E.
  apply in_or_app; now left.
Qed.

Lemma comment_line_no_nl (marker l : str) :
  no_nl marker -> no_nl l -> no_nl (comment_line marker l).
Proof.
  intros Hm Hl. apply rstrip_no_nl. unfold no_nl. intros Hin.
  apply in_app_or in Hin. destruct Hin as [Hin|[Hin|Hin]]; auto.
  discriminate.
Qed.

Lemma comment_lines_no_nl (marker T : str) :
  no_nl marker -> Forall no_nl (map (comment_line marker) (split_nl T)).
Proof.
  intros Hm. apply Forall_map.
  eapply Forall_impl; [|apply split_nl_no_nl].
  intros l Hl. now apply comment_line_no_nl.
Qed.

Lemma map_not_nil {A B} (f : A -> B) (l : list A) : l <> [] -> map f l <> [].
Proof. destruct l; [congruence | discriminate]. Qed.

(** C7 (amended): [create_header_comment] takes the single-line form exactly
    when all three markers are equal: then the lines of its result are the
    lines of the text, each prefixed with the start marker and a space and
    trimmed on the right, with no start line and no end line of their own.
    For every other style, also one with [start == middle] and another end
    marker, the result is the start marker, the middle-prefixed lines and the
    end marker. *)
Theorem create_header_comment_forms (T : str) (cs : comment_style) :
  (start cs = middle cs /\ middle cs = end_ cs ->
     create_header_comment T cs
       = join_nl (map (fun l => rstrip (start cs ++ SP :: l)) (split_nl T))
     /\ (no_nl (start cs) ->
         split_nl (create_header_comment T cs)
           = map (fun l => rstrip (start cs ++ SP :: l)) (split_nl T)))
  /\
  (~ (start cs = middle cs /\ middle cs = end_ cs) ->
     create_header_comment T cs
       = join_nl ([start cs]
                  ++ map (fun l => rstrip (middle cs ++ SP :: l)) (split_nl T)
                  ++ [end_ cs])).
Proof.
  unfold create_header_comment. split.
  - intros [E1 E2]. rewrite E1, E2, eqb_refl. simpl andb. cbv iota.
    split; [reflexivity|]. intros Hn.
    apply split_join.
    + apply map_not_nil, split_nl_not_nil.
    + now apply comment_lines_no_nl.
  - intros H.
    destruct (eqb (start cs) (middle cs)) eqn:E1;
      destruct (eqb (middle cs) (end_ cs)) eqn:E2; simpl andb; cbv iota;
      try reflexivity.
    apply eqb_eq in E1, E2. tauto.
Qed.

Lemma create_header_comment_forms_witness :
  split_nl (create_header_comment (lit "a" ++ NL :: lit "b  ")
              CommentRegistry.hash_style)
    = [lit "# a"; lit "# b"]
  /\ create_header_comment (lit "a") (mk_style (lit "--") (lit "--") (lit ""))
    = lit "--" ++ NL :: lit "-- a" ++ [NL].
Proof.
  split.
  - apply (proj1 (create_header_comment_forms (lit "a" ++ NL :: lit "b  ")
                    CommentRegistry.hash_style)).
    + split; reflexivity.
    + unfold no_nl. simpl. intros [H|[]]. discriminate.
  - apply (proj2 (create_header_comment_forms (lit "a")
                    (mk_style (lit "--") (lit "--") (lit "")))).
    simpl. intros [_ H]. discriminate.
Defined.

(** C7, as stated, fails: a style with [start == middle] and another end
    marker is wrapped in the multi-line form, with a start line and an end
    line of their own. *)
Lemma start_eq_middle_not_line_form :
  let cs := mk_style (lit "--") (lit "--") (lit "") in
  start cs = middle cs /\
  create_header_comment (lit "a") cs
    <> join_nl (map (fun l => rstrip (start cs ++ SP :: l))
                  (split_nl (lit "a"))) /\
  split_nl (create_header_comment (lit "a") cs) = [lit "--"; lit "-- a"; []].
Proof.
  cbv zeta. split; [reflexivity|]. split; [|reflexivity].
  vm_compute. discriminate.
Qed.

End WrapFacts.

(** ** Shebang lines *)

Module ShebangFacts.
Import Defs.
Import Py PyFacts StripFacts LicenseHeaderManager BodyFacts.

(** The new content of a file with a shebang line. *)
Lemma new_content_shebang (T C : str) (cs : comment_style) :
  has_shebang (split_nl C) = true ->
  new_content T cs C
    = nth 0 (split_nl C) [] ++ NL :: create_header_comment T cs
        ++ NL :: remaining_content cs C.
Proof.
  intros H. unfold new_content. rewrite H.
  destruct (remaining_content cs C); reflexivity.
Qed.

Lemma write_file_read (w : world) (p c : str) :
  files (write_file w p c) p = Some (Text c).
Proof. simpl. now rewrite eqb_refl. Qed.

Lemma universal_no_cr (raw : str) : ~ In CR (universal_newlines raw).
Proof.
  assert (G : forall n raw, length raw <= n ->
                ~ In CR (universal_newlines raw)).
  { induction n as [|n IH]; intros [|c rest] Hl; simpl in *; try tauto;
      try lia.
    destruct (Ascii.eqb_spec c CR) as [->|Hc].
    - destruct rest as [|c' rest'].
      + intros [H|[]]. discriminate H.
      + destruct (Ascii.eqb c' NL).
        * intros [H|H]; [discriminate H|].
          apply (IH rest'); [simpl in Hl; lia | assumption].
        * intros [H|H]; [discriminate H|].
          apply (IH (c' :: rest')); [simpl in *; lia | assumption].
    - intros [H|H]; [congruence|].
      apply (IH rest); [lia | assumption]. }
  apply (G (length raw)). lia.
Qed.

Lemma universal_line_app (a b : str) :
  ~ In CR a ->
  universal_newlines (a ++ NL :: b) = a ++ NL :: universal_newlines b.
Proof.
  induction a as [|c a IH]; intros H.
  - reflexivity.
  - simpl app. simpl universal_newlines.
    destruct (Ascii.eqb_spec c CR) as [->|Hc].
    + exfalso. apply H. now left.
    + rewrite IH; [reflexivity|]. intros Hin. apply H. now right.
Qed.

Lemma in_first_line (c : ascii) (s : str) :
  In c (nth 0 (split_nl s) []) -> In c s.
Proof.
  intros H. rewrite <- (join_split s).
  destruct (split_nl s) as [|l ls]; [destruct H|]. simpl nth in H.
  destruct ls as [|l' ls]; [exact H|].
  rewrite join_nl_cons by discriminate. apply in_or_app. now left.
Qed.

Lemma read_text_inv (w : world) (p C : str) :
  read_text w p = Returned C ->
  exists raw, files w p = Some (Text raw) /\ C = universal_newlines raw.
Proof.
  unfold read_text. destruct (files w p) as [[raw| | |]|]; try discriminate.
  intros E. injection E as <-. now exists raw.
Qed.

Lemma read_written (w : world) (p c : str) :
  read_text (write_file w p c) p = Returned (universal_newlines c).
Proof. unfold read_text. now rewrite write_file_read. Qed.

(** C6: when the first line of a file starts with ["#!"], whatever the
    comment style, the new content is that line, a newline, the new header, a
    newline and the body, the body being a tail end of the original content;
    and after [process_file] the first line of the file is the original first
    line (unless a write that fails has truncated the file). *)
Theorem shebang_preserved (suffix : str -> str)
    (self : LicenseHeaderManager.t) (w : world) (file_path : str)
    (cs : comment_style) (raw T C : str) :
  CommentRegistry.get_comment_style suffix (comment_registry self) file_path
    = Some cs ->
  read_text w file_path = Returned C ->
  read_text w (template_file self) = Returned raw ->
  format_template self (strip raw) = Formatted T ->
  has_shebang (split_nl C) = true ->
  let shebang := nth 0 (split_nl C) [] in
  let out := new_content T cs C in
  out = shebang ++ NL :: create_header_comment T cs
          ++ NL :: remaining_content cs C
  /\ is_suffix (remaining_content cs C) C
  /\ nth 0 (split_nl out) [] = shebang
  /\ exists b w1 tr,
       process_file suffix self w file_path = (Returned b, w1, tr)
       /\ (b = true -> files w1 file_path = Some (Text out))
       /\ ((forall torn, write_mode_of w file_path <> WriteFails torn) ->
           exists C1, read_text w1 file_path = Returned C1
                      /\ nth 0 (split_nl C1) [] = shebang).
Proof.
  intros Hcs Hf Ht Hfmt Hsb shebang out.
  assert (Hout : out = shebang ++ NL :: create_header_comment T cs
                         ++ NL :: remaining_content cs C)
    by now apply new_content_shebang.
  assert (Hfirst : nth 0 (split_nl out) [] = shebang).
  { rewrite Hout. apply hd_split_line, nth0_split_no_nl. }
  assert (Hback : nth 0 (split_nl (universal_newlines out)) [] = shebang).
  { rewrite Hout. rewrite universal_line_app.
    - apply hd_split_line, nth0_split_no_nl.
    - intros Hin. apply in_first_line in Hin.
      destruct (read_text_inv _ _ _ Hf) as [raw0 [_ ->]].
      now apply universal_no_cr in Hin. }
  repeat split; auto using remaining_content_suffix.
  unfold process_file, load_template. rewrite Hcs, Hf, Ht, Hfmt.
  fold out. destruct (eqb out C) eqn:E; simpl negb; cbv iota.
  - exists false, w. eexists.
    split; [reflexivity|]. split; [discriminate|].
    intros _. exists C. split; [assumption | reflexivity].
  - destruct (write_mode_of w file_path) as [| |torn] eqn:Hw.
    + exists true, (write_file w file_path out). eexists.
      split; [reflexivity|]. split; [intros _; apply write_file_read|].
      intros _. exists (universal_newlines out).
      split; [apply read_written | exact Hback].
    + exists false, w. eexists.
      split; [reflexivity|]. split; [discriminate|].
      intros _. exists C. split; [assumption | reflexivity].
    + exists false, (write_file w file_path torn). eexists.
      split; [reflexivity|]. split; [discriminate|].
      intros H. exfalso. now apply (H torn).
Qed.

Lemma shebang_preserved_witness :
  new_content (lit "Copyright 2024 Acme") CommentRegistry.hash_style
    (lit "#!/bin/sh" ++ NL :: NL :: lit "echo hi" ++ [NL])
  = lit "#!/bin/sh" ++ NL :: lit "# Copyright 2024 Acme"
      ++ NL :: lit "echo hi" ++ [NL].
Proof.
  apply (proj1 (shebang_preserved Pathlib.suffix (manager "Acme" 2024)
                  shebang_example (lit "run.sh") CommentRegistry.hash_style
                  scenario_template (lit "Copyright 2024 Acme")
                  (lit "#!/bin/sh" ++ NL :: NL :: lit "echo hi" ++ [NL])
                  eq_refl eq_refl eq_refl eq_refl eq_refl)).
Defined.

End ShebangFacts.

(** ** The registry and skipped files *)

Module RegistryFacts.
Import Defs.
Import Py PyFacts LicenseHeaderManager.

Lemma dict_get_absent {V} (d : dict V) (k : str) :
  ~ In k (map fst d) -> dict_get d k = None.
Proof.
  induction d as [|[k' v] d IH]; simpl; [reflexivity|].
  intros H. destruct (eqb k' k) eqn:E.
  - apply eqb_eq in E. tauto.
  - apply IH. tauto.
Qed.

Section Lookup.
Variable suffix : str -> str.

(** C9: a path whose lowercased suffix is not a key of the registry has no
    comment style; the lookup depends on the path through its lowercased
    suffix only; and [process_file] on such a path returns [False] without
    opening any file, leaving the store as it is. *)
Theorem unregistered_extension_skipped
    (self : LicenseHeaderManager.t) (w : world) (file_path : str) :
  let r := comment_registry self in
  ~ In (lower (suffix file_path)) (map fst (CommentRegistry.mappings r)) ->
  CommentRegistry.get_comment_style suffix r file_path = None
  /\ (forall q, lower (suffix q) = lower (suffix file_path) ->
        CommentRegistry.get_comment_style suffix r q = None)
  /\ process_file suffix self w file_path = (Returned false, w, []).
Proof.
  intros r H.
  assert (E : CommentRegistry.get_comment_style suffix r file_path = None)
    by now apply dict_get_absent.
  split; [exact E|]. split.
  - intros q Hq. unfold CommentRegistry.get_comment_style in *.
    now rewrite Hq.
  - unfold process_file. fold r. now rewrite E.
Qed.

(** The lookup is case-insensitive in the suffix. *)
Lemma get_comment_style_lower (r : CommentRegistry.t) (p q : str) :
  lower (suffix p) = lower (suffix q) ->
  CommentRegistry.get_comment_style suffix r p
    = CommentRegistry.get_comment_style suffix r q.
Proof.
  intros H. unfold CommentRegistry.get_comment_style. now rewrite H.
Qed.
End Lookup.

Lemma unregistered_extension_skipped_witness :
  process_file Pathlib.suffix (manager "Acme" 2024) (world_of [])
    (lit "notes.TXT")
  = (Returned false, world_of [], []).
Proof.
  apply (unregistered_extension_skipped Pathlib.suffix (manager "Acme" 2024)
           (world_of []) (lit "notes.TXT")).
  vm_compute.
  intros H; repeat (destruct H as [H|H]; [discriminate H|]); exact H.
Defined.

End RegistryFacts.

(** ** A missing template *)

Module TemplateFacts.
Import Defs.
Import Py PyFacts LicenseHeaderManager.

Lemma reaches_isfile (suffix : str -> str) (self : LicenseHeaderManager.t)
    (w : world) (p : str) :
  reaches_template suffix self w p = true -> isfile w p = true.
Proof.
  unfold reaches_template, read_text, isfile.
  destruct (CommentRegistry.get_comment_style _ _ _); [|discriminate].
  destruct (files w p) as [[raw| | |]|]; try discriminate; reflexivity.
Qed.

Section Unreadable.
Variable suffix : str -> str.
Variable should_process : str -> bool.
Variable self : LicenseHeaderManager.t.
Variable w : world.
Variable e : exn.
Hypothesis unreadable : read_text w (template_file self) = Raised e.

Lemma load_template_raises : load_template self w = Raised e.
Proof. unfold load_template. rewrite unreadable. now destruct e. Qed.

Lemma process_file_unreadable_template (file_path : str) :
  process_file suffix self w file_path =
    if reaches_template suffix self w file_path
    then (Raised e, w,
          [OpenRead file_path; OpenRead (template_file self)])
    else (Returned false, w,
          match CommentRegistry.get_comment_style suffix
                  (comment_registry self) file_path with
          | Some _ => [OpenRead file_path]
          | None => []
          end).
Proof.
  unfold process_file, reaches_template.
  destruct (CommentRegistry.get_comment_style _ _ _); [|reflexivity].
  destruct (read_text w file_path); try reflexivity.
  now rewrite load_template_raises.
Qed.

(** C8 (amended): when reading the template raises an exception
    ([FileNotFoundError] when there is no such file), the run over the
    candidate files opens nothing for writing and leaves the store as it is.
    It ends with that exception exactly when some candidate that is selected
    has a comment style and can be read, right after the first such
    candidate has been opened for reading, the candidates before it having
    at most been opened for reading; otherwise it ends normally with no
    file modified. *)
Theorem missing_template_run (paths : list str) :
  let reaches p :=
    should_process p && reaches_template suffix self w p in
  exists r tr,
    main_loop suffix should_process self w paths = (r, w, tr)
    /\ forallb (fun ev => negb (is_write ev)) tr = true
    /\ ((exists before p after tr0,
           paths = before ++ p :: after
           /\ existsb reaches before = false
           /\ reaches p = true
           /\ r = Raised e
           /\ tr = tr0 ++ [OpenRead p; OpenRead (template_file self)]
           /\ forall ev, In ev tr0 ->
                exists q, In q before /\ ev = OpenRead q)
        \/ (existsb reaches paths = false /\ r = Returned [])).
Proof.
  intros reaches.
  induction paths as [|a more IH]; simpl main_loop.
  - exists (Returned []), []. split; [reflexivity|]. split; [reflexivity|].
    right. now split.
  - destruct IH as [r [tr [IH [Hw Hr]]]].
    assert (Skip : forall t1,
              reaches a = false ->
              (forall ev, In ev t1 -> ev = OpenRead a) ->
              forallb (fun ev => negb (is_write ev)) (t1 ++ tr) = true
              /\ ((exists before p after tr0,
                     a :: more = before ++ p :: after
                     /\ existsb reaches before = false
                     /\ reaches p = true
                     /\ r = Raised e
                     /\ t1 ++ tr
                        = tr0 ++ [OpenRead p; OpenRead (template_file self)]
                     /\ forall ev, In ev tr0 ->
                          exists q, In q before /\ ev = OpenRead q)
                  \/ (existsb reaches (a :: more) = false
                      /\ r = Returned []))).
    { intros t1 Ha Ht1. split.
      { rewrite forallb_app, Hw, andb_true_r. apply forallb_forall.
        intros ev Hev. now rewrite (Ht1 ev Hev). }
      destruct Hr as [[before [p [after [tr0 [E1 [E2 [E3 [E4 [E5 E6]]]]]]]]]
                     | [E1 E2]].
      - left. exists (a :: before), p, after, (t1 ++ tr0).
        rewrite E1, E5. simpl existsb. rewrite Ha, E2, app_assoc.
        repeat split; auto.
        intros ev Hev. apply in_app_or in Hev. destruct Hev as [Hev|Hev].
        + exists a. split; [now left | now apply Ht1].
        + destruct (E6 ev Hev) as [q [Hq ->]]. exists q.
          split; [now right | reflexivity].
      - right. simpl. now rewrite Ha, E1. }
    destruct (isfile w a) eqn:Hf; simpl negb; cbv iota.
    + destruct (should_process a) eqn:Hs; simpl negb; cbv iota.
      * rewrite process_file_unreadable_template.
        destruct (reaches_template suffix self w a) eqn:Hr'.
        -- exists (Raised e). eexists. split; [reflexivity|].
           split; [reflexivity|]. left. exists [], a, more, [].
           unfold reaches. rewrite Hs, Hr'.
           repeat split; auto. intros ev [].
        -- rewrite IH.
           assert (Ha : reaches a = false)
             by (unfold reaches; now rewrite Hs, Hr').
           set (t1 := match CommentRegistry.get_comment_style suffix
                              (comment_registry self) a with
                      | Some _ => [OpenRead a]
                      | None => []
                      end).
           assert (Ht1 : forall ev, In ev t1 -> ev = OpenRead a).
           { unfold t1. destruct (CommentRegistry.get_comment_style _ _ _).
             - intros ev [<-|[]]. reflexivity.
             - intros ev []. }
           destruct (Skip t1 Ha Ht1) as [S1 S2].
           exists r, (t1 ++ tr). split; [now destruct r|]. now split.
      * assert (Ha : reaches a = false)
          by (unfold reaches; now rewrite Hs).
        destruct (Skip [] Ha (fun ev (H : In ev []) => match H with end))
          as [S1 S2].
        exists r, tr. split; [assumption|]. now split.
    + assert (Ha : reaches a = false).
      { unfold reaches.
        destruct (reaches_template suffix self w a) eqn:Hr';
          [|apply andb_false_r].
        apply reaches_isfile in Hr'. congruence. }
      destruct (Skip [] Ha (fun ev (H : In ev []) => match H with end))
        as [S1 S2].
      exists r, tr. split; [assumption|]. now split.
Qed.
End Unreadable.

Lemma missing_template_run_witness :
  exists tr,
    main_loop Pathlib.suffix (fun _ => true) (manager "Acme" 2024)
      missing_template_example [lit "a.py"]
      = (Raised FileNotFoundError, missing_template_example, tr)
    /\ forallb (fun e => negb (is_write e)) tr = true.
Proof.
  destruct (missing_template_run Pathlib.suffix (fun _ => true)
              (manager "Acme" 2024) missing_template_example
              FileNotFoundError eq_refl [lit "a.py"])
    as [r [tr [H [Hw [[before [p [after [tr0 [_ [_ [_ [-> _]]]]]]]]
                     | [He _]]]]]].
  - exists tr. split; assumption.
  - vm_compute in He. discriminate He.
Defined.

(** C8, as stated, fails: with no template, [process_file] on a readable
    Python file raises [FileNotFoundError] only after it has opened that file
    for reading. *)
Lemma candidate_read_before_template_failure :
  process_file Pathlib.suffix (manager "Acme" 2024) missing_template_example
    (lit "a.py")
  = (Raised FileNotFoundError, missing_template_example,
     [OpenRead (lit "a.py"); OpenRead template_path]).
Proof. reflexivity. Qed.

End TemplateFacts.

(** ** The two scenarios *)

Module Scenarios.
Import Defs.
Import Py LicenseHeaderManager.

(** C4: with the style of [.py] files (all three markers ["#"]), the
    template ["Copyright {year} {copyright_holder}"], holder ["Acme"] and
    year 2024, a file holding ["print('hi')\n"] is rewritten to
    ["# Copyright 2024 Acme\nprint('hi')\n"] and [process_file] returns
    [True]; run again on the result it returns [False] and opens nothing for
    writing. *)
Theorem line_scenario :
  let self := manager "Acme" 2024 in
  CommentRegistry.get_comment_style Pathlib.suffix default_registry hi_py
    = Some (mk_style (lit "#") (lit "#") (lit "#"))
  /\ format_template self scenario_template
     = Formatted (lit "Copyright 2024 Acme")
  /\ new_content (lit "Copyright 2024 Acme") CommentRegistry.hash_style
       hi_before = hi_after
  /\ process_file Pathlib.suffix self hi_world hi_py
     = (Returned true, write_file hi_world hi_py hi_after,
        [OpenRead hi_py; OpenRead template_path; OpenWrite hi_py])
  /\ files (write_file hi_world hi_py hi_after) hi_py = Some (Text hi_after)
  /\ process_file Pathlib.suffix self (write_file hi_world hi_py hi_after)
       hi_py
     = (Returned false, write_file hi_world hi_py hi_after,
        [OpenRead hi_py; OpenRead template_path]).
Proof.
  cbv zeta. repeat split; vm_compute; reflexivity.
Qed.

(** C5: with the style of [.js] files (["/*"], [" *"], [" */"]), holder
    ["Acme"] and year 2025 (and the template of the first scenario), a file
    holding the stale header ["/*\n * Copyright 2020 Old\n */\nbody();\n"] is
    rewritten to ["/*\n * Copyright 2025 Acme\n */\nbody();\n"]: the stale
    block is replaced and the body is left as it was. *)
Theorem block_scenario :
  let self := manager "Acme" 2025 in
  CommentRegistry.get_comment_style Pathlib.suffix default_registry body_js
    = Some (mk_style (lit "/*") (lit " *") (lit " */"))
  /\ format_template self scenario_template
     = Formatted (lit "Copyright 2025 Acme")
  /\ remove_existing_header body_before CommentRegistry.c_style
     = lit "body();" ++ [NL]
  /\ new_content (lit "Copyright 2025 Acme") CommentRegistry.c_style
       body_before = body_after
  /\ process_file Pathlib.suffix self body_world body_js
     = (Returned true, write_file body_world body_js body_after,
        [OpenRead body_js; OpenRead template_path; OpenWrite body_js])
  /\ files (write_file body_world body_js body_after) body_js
     = Some (Text body_after).
Proof.
  cbv zeta. repeat split; vm_compute; reflexivity.
Qed.

End Scenarios.

(** ** Trimming *)

Module TrimFacts.
Import Defs.
Import Py PyFacts StripFacts.

Lemma rstrip_cons_keep (c : ascii) (s : str) :
  rstrip s <> [] -> rstrip (c :: s) = c :: rstrip s.
Proof. simpl. destruct (rstrip s); [congruence | reflexivity]. Qed.

Lemma rstrip_idem (s : str) : rstrip (rstrip s) = rstrip s.
Proof.
  induction s as [|c s IH]; simpl; [reflexivity|].
  destruct (rstrip s) as [|r rs] eqn:E.
  - destruct (isspace c) eqn:Hc; simpl; [reflexivity | now rewrite Hc].
  - rewrite rstrip_cons_keep; rewrite IH; [reflexivity | discriminate].
Qed.

Lemma rstrip_fixed_tail (c : ascii) (s : str) :
  s <> [] -> rstrip (c :: s) = c :: s -> rstrip s = s.
Proof.
  simpl. destruct (rstrip s) eqn:E.
  - destruct (isspace c); intros Hs H; inversion H; congruence.
  - intros _ H; now inversion H.
Qed.

(** A marker that ends with a character that is no space stays in place
    when what follows it is trimmed. *)
Lemma rstrip_app_keep (a b : str) :
  a <> [] -> rstrip a = a -> rstrip (a ++ b) = a ++ rstrip b.
Proof.
  induction a as [|c a IH]; [congruence|]. intros _ H.
  destruct a as [|c' a].
  - simpl in *. destruct (isspace c); [discriminate|].
    destruct (rstrip b); reflexivity.
  - assert (Ht : rstrip (c' :: a) = c' :: a)
      by (apply (rstrip_fixed_tail c); [discriminate | exact H]).
    change ((c :: c' :: a) ++ b) with (c :: ((c' :: a) ++ b)).
    rewrite rstrip_cons_keep; rewrite IH by (discriminate || assumption).
    + reflexivity.
    + discriminate.
Qed.

Lemma lstrip_idem (s : str) : lstrip (lstrip s) = lstrip s.
Proof.
  induction s as [|c s IH]; simpl; [reflexivity|].
  destruct (isspace c) eqn:E; [assumption | simpl; now rewrite E].
Qed.

Lemma rstrip_lstrip_fixed (s : str) :
  rstrip s = s -> rstrip (lstrip s) = lstrip s.
Proof.
  induction s as [|c s IH]; [reflexivity|]. intros H. simpl lstrip.
  destruct (isspace c) eqn:E; [|assumption].
  destruct s as [|c' s]; [reflexivity|].
  apply IH. apply (rstrip_fixed_tail c); [discriminate | assumption].
Qed.

Lemma strip_idem (s : str) : strip (strip s) = strip s.
Proof.
  unfold strip.
  rewrite (rstrip_lstrip_fixed (rstrip s)) by apply rstrip_idem.
  apply lstrip_idem.
Qed.

Lemma strip_rstrip (s : str) : strip (rstrip s) = strip s.
Proof. unfold strip. now rewrite rstrip_idem. Qed.

Lemma strip_space_cons (c : ascii) (s : str) :
  isspace c = true -> strip (c :: s) = strip s.
Proof.
  intros H. unfold strip. simpl rstrip.
  destruct (rstrip s) as [|r rs]; rewrite ?H; simpl; now rewrite ?H.
Qed.

Lemma strip_space_app (ws s : str) :
  all_space ws -> strip (ws ++ s) = strip s.
Proof.
  induction 1 as [|c ws Hc _ IH]; [reflexivity|].
  simpl app. now rewrite strip_space_cons.
Qed.

(** A string that starts with a character that is no space and is already
    trimmed on the right is its own trimming. *)
Lemma strip_fixed (s : str) :
  rstrip s = s -> lstrip s = s -> strip s = s.
Proof. unfold strip. now intros -> ->. Qed.

Lemma lstrip_app_keep (a b : str) :
  a <> [] -> lstrip a = a -> lstrip (a ++ b) = a ++ b.
Proof.
  destruct a as [|c a]; [congruence|]. intros _. simpl.
  destruct (isspace c); [|reflexivity].
  intros H. exfalso.
  destruct (lstrip_suffix a) as [t [E _]].
  apply (f_equal (@length ascii)) in H, E.
  rewrite length_app in E. simpl in H. lia.
Qed.

Lemma endswith_refl (s : str) : endswith s s = true.
Proof.
  unfold endswith. rewrite Nat.leb_refl, Nat.sub_diag. apply eqb_refl.
Qed.

Lemma contains_skipn (p s : str) (n : nat) :
  contains p (skipn n s) = true -> contains p s = true.
Proof.
  intros H. rewrite <- (firstn_skipn n s). now apply contains_app_r.
Qed.

Lemma endswith_contains (s p : str) :
  endswith s p = true -> contains p s = true.
Proof.
  unfold endswith. rewrite andb_true_iff. intros [_ H].
  apply eqb_eq in H. apply (contains_skipn _ _ (length s - length p)).
  rewrite H. apply contains_refl.
Qed.

End TrimFacts.

(** ** Wrapped headers *)

Module MarkerFacts.
Import Defs.
Import Py PyFacts StripFacts TrimFacts LoopFacts LicenseHeaderManager.

Lemma rstrip_space_cases (l : str) :
  rstrip (SP :: l) = [] \/ exists y, rstrip (SP :: l) = SP :: y.
Proof.
  simpl. destruct (rstrip l); [left; reflexivity | right; eauto].
Qed.

Section Marker.
Variable m : str.
Hypothesis plain : plain_marker m.

Lemma comment_line_eq (l : str) :
  comment_line m l = m ++ rstrip (SP :: l).
Proof.
  destruct plain as [Hne [Hr _]]. unfold comment_line.
  now apply rstrip_app_keep.
Qed.

Lemma strip_comment_line (l : str) :
  strip (comment_line m l) = comment_line m l.
Proof.
  apply strip_fixed.
  - unfold comment_line. apply rstrip_idem.
  - rewrite comment_line_eq. destruct plain as [Hne [_ [Hl _]]].
    now apply lstrip_app_keep.
Qed.

Lemma startswith_comment_line (l : str) :
  startswith (comment_line m l) m = true.
Proof. rewrite comment_line_eq. apply startswith_app. Qed.

Lemma comment_line_not_nil (l : str) : comment_line m l <> [].
Proof.
  rewrite comment_line_eq. destruct plain as [Hne _].
  destruct m; [congruence | discriminate].
Qed.

Lemma blank_comment_line (l : str) : blank (comment_line m l) = false.
Proof.
  unfold blank. rewrite strip_comment_line.
  pose proof (comment_line_not_nil l). now destruct (comment_line m l).
Qed.

Lemma comment_line_content (l : str) :
  strip (slice_from (length m) (comment_line m l)) = strip l.
Proof.
  rewrite comment_line_eq. unfold slice_from.
  rewrite BodyFacts.skipn_length_app, strip_rstrip.
  now apply strip_space_cons.
Qed.

Lemma comment_line_not_shebang (l : str) :
  not_shebang m -> startswith (comment_line m l) (lit "#!") = false.
Proof.
  unfold not_shebang. rewrite comment_line_eq.
  destruct plain as [Hne _].
  destruct m as [|a [|b m']]; [congruence | |]; simpl.
  - destruct (rstrip_space_cases l) as [E|[y E]]; simpl in E; rewrite E;
      simpl; intros ->; reflexivity || now rewrite ?andb_false_r.
  - auto.
Qed.

Lemma collect_single_wrapped (ls rest : list str) :
  collect_single m (map (comment_line m) ls ++ rest)
    = map (comment_line m) ls ++ collect_single m rest.
Proof.
  induction ls as [|l ls IH]; [reflexivity|]. simpl.
  now rewrite strip_comment_line, startswith_comment_line, IH.
Qed.

Lemma content_single_wrapped (ls : list str) :
  content_single m (map (comment_line m) ls) = map strip ls.
Proof.
  induction ls as [|l ls IH]; [reflexivity|]. simpl.
  now rewrite strip_comment_line, startswith_comment_line,
    comment_line_content, IH.
Qed.

Lemma match_header_wrapped (hs rest : list str) (i : nat) :
  match_header hs (hs ++ rest) i = i + length hs.
Proof.
  revert i; induction hs as [|h hs IH]; intros i; simpl; [lia|].
  rewrite eqb_refl, IH. lia.
Qed.

End Marker.

(** For a plain marker, a line that starts with the marker still does once
    trimmed: the test the code makes on the trimmed line covers the lines
    that start with the marker as they stand. *)
Lemma startswith_strip_plain (m l : str) :
  plain_marker m -> startswith l m = true -> startswith (strip l) m = true.
Proof.
  intros [Hne [Hr [Hl _]]] H. destruct (startswith_inv _ _ H) as [r ->].
  unfold strip. rewrite rstrip_app_keep by assumption.
  rewrite lstrip_app_keep by assumption. apply startswith_app.
Qed.

Lemma collect_multi_upto (en e : str) (xs rest : list str) :
  Forall (fun l => contains en (strip l) = false) xs ->
  contains en (strip e) = true ->
  collect_multi en (xs ++ e :: rest) = xs ++ [e].
Proof.
  intros Hx He. induction Hx as [|x xs Hx _ IH]; simpl.
  - now rewrite He.
  - now rewrite Hx, IH.
Qed.

Lemma skip_block_upto (en e : str) (xs rest : list str) (i : nat) :
  Forall (fun l => contains en l = false) xs ->
  contains en e = true ->
  skip_block en (xs ++ e :: rest) i = i + length xs + 1.
Proof.
  intros Hx He. revert i. induction Hx as [|x xs Hx _ IH]; intros i; simpl.
  - rewrite He. lia.
  - rewrite Hx, IH. lia.
Qed.

Lemma style_eqb_eq (a b : comment_style) : style_eqb a b = true -> a = b.
Proof.
  unfold style_eqb. rewrite !andb_true_iff, !eqb_eq.
  destruct a, b; simpl. now intros [[-> ->] ->].
Qed.

Lemma registered_cases (cs : comment_style) :
  CommentRegistry.registered cs = true ->
  cs = CommentRegistry.hash_style \/ cs = CommentRegistry.slash_style \/
  cs = CommentRegistry.c_style \/ cs = CommentRegistry.html_style \/
  cs = CommentRegistry.vhdl_style \/ cs = CommentRegistry.md_style.
Proof.
  unfold CommentRegistry.registered, CommentRegistry.DEFAULT_MAPPINGS.
  simpl existsb. rewrite !orb_true_iff.
  intros H.
  repeat (destruct H as [H|H];
          [apply style_eqb_eq in H; subst cs; tauto|]).
  discriminate.
Qed.

Lemma plain_hash : plain_marker (lit "#") /\ not_shebang (lit "#").
Proof.
  repeat split; try discriminate. intros [H|[]]; discriminate.
Qed.

Lemma plain_slash : plain_marker (lit "//") /\ not_shebang (lit "//").
Proof.
  repeat split; try discriminate. intros [H|[H|[]]]; discriminate.
Qed.

End MarkerFacts.

(** ** Wrapping, then detecting *)

Module RoundTrip.
Import Defs.
Import Py PyFacts StripFacts TrimFacts LoopFacts LicenseHeaderManager.
Import WrapFacts MarkerFacts.

(** Single-line styles: all three markers are the plain marker [m]. *)
Lemma roundtrip_single (m T : str) :
  plain_marker m -> not_shebang m ->
  let cs := mk_style m m m in
  let H := create_header_comment T cs in
  extract_existing_header H cs = Some H
  /\ _extract_header_content H cs = join_nl (map strip (split_nl T)).
Proof.
  intros Hp Hs cs H.
  assert (EH : H = join_nl (map (comment_line m) (split_nl T))).
  { unfold H, create_header_comment. simpl. now rewrite eqb_refl. }
  assert (ES : split_nl H = map (comment_line m) (split_nl T)).
  { rewrite EH. apply split_join.
    - apply map_not_nil, split_nl_not_nil.
    - apply comment_lines_no_nl, Hp. }
  pose proof (split_nl_not_nil T) as Hne.
  destruct (split_nl T) as [|t0 ts] eqn:ET; [congruence|].
  split.
  - unfold extract_existing_header. rewrite ES. simpl map.
    unfold has_shebang. rewrite (comment_line_not_shebang _ Hp t0 Hs).
    simpl skipn. simpl skip_blank. rewrite (blank_comment_line _ Hp).
    simpl length. simpl Nat.leb. simpl nth. simpl start. simpl middle.
    rewrite eqb_refl, (strip_comment_line _ Hp), (startswith_comment_line _ Hp).
    simpl negb. cbv iota.
    change (comment_line m t0 :: map (comment_line m) ts)
      with (map (comment_line m) (t0 :: ts)).
    unfold skipn.
    rewrite <- (app_nil_r (map (comment_line m) (t0 :: ts))).
    rewrite (collect_single_wrapped _ Hp). simpl collect_single.
    rewrite app_nil_r. simpl map. now rewrite EH.
  - unfold _extract_header_content. rewrite ES. simpl start. simpl middle.
    rewrite eqb_refl. now rewrite (content_single_wrapped _ Hp).
Qed.

Section BlankMiddle.
Variable cs : comment_style.
Hypothesis ok : blank_middle cs.

Lemma strip_start : strip (start cs) = start cs.
Proof.
  destruct (bm_start _ ok) as [_ [Hr [Hl _]]]. now apply strip_fixed.
Qed.

Lemma strip_middle_line (l : str) :
  strip (comment_line (middle cs) l) = strip l.
Proof.
  unfold comment_line. rewrite strip_rstrip.
  rewrite strip_space_app by apply (bm_middle _ ok).
  now apply strip_space_cons.
Qed.

Lemma strip_middle_nil : strip (middle cs) = [].
Proof.
  rewrite <- (app_nil_r (middle cs)).
  now rewrite strip_space_app by apply (bm_middle _ ok).
Qed.

Lemma content_multi_wrapped (ls : list str) (j : nat) :
  Forall (fun l => contains (end_ cs) (strip l) = false) ls ->
  content_multi cs (S j) (map (comment_line (middle cs)) ls ++ [end_ cs])
    = map strip ls.
Proof.
  intros Hls; revert j; induction Hls as [|l ls Hl _ IH]; intros j.
  - simpl. rewrite (bm_end_strip _ ok), endswith_refl.
    unfold slice_to_neg. pose proof (bm_end _ ok) as Hne.
    destruct (end_ cs) as [|e en] eqn:Ee; [congruence|].
    rewrite Nat.sub_diag. simpl firstn.
    rewrite strip_middle_nil. reflexivity.
  - simpl. rewrite strip_middle_line, strip_middle_nil.
    destruct (endswith (strip l) (end_ cs)) eqn:Ew.
    + apply endswith_contains in Ew. congruence.
    + simpl startswith. unfold slice_from. simpl skipn.
      now rewrite strip_idem, IH.
Qed.

Lemma roundtrip_multi (T : str) :
  Forall (fun l => contains (end_ cs) (strip l) = false) (split_nl T) ->
  let H := create_header_comment T cs in
  extract_existing_header H cs = Some H
  /\ _extract_header_content H cs = join_nl (map strip (split_nl T)).
Proof.
  intros HT H.
  set (mids := map (comment_line (middle cs)) (split_nl T)).
  assert (EH : H = join_nl (start cs :: mids ++ [end_ cs])).
  { unfold H, create_header_comment. now rewrite (bm_mode _ ok). }
  assert (ES : split_nl H = start cs :: mids ++ [end_ cs]).
  { rewrite EH. apply split_join; [discriminate|].
    constructor; [apply (bm_start _ ok)|].
    apply Forall_app. split.
    - apply comment_lines_no_nl, (bm_middle_nl _ ok).
    - constructor; [apply (bm_end_nl _ ok) | constructor]. }
  assert (Hb : blank (start cs) = false).
  { unfold blank. rewrite strip_start.
    destruct (bm_start _ ok) as [Hne _]. now destruct (start cs). }
  split.
  - unfold extract_existing_header. rewrite ES.
    unfold has_shebang. rewrite (bm_start_sb _ ok).
    simpl skipn. simpl skip_blank. rewrite Hb.
    simpl length. simpl Nat.leb. simpl nth.
    rewrite (bm_mode _ ok), strip_start, startswith_refl.
    simpl negb. cbv iota. simpl collect_multi.
    rewrite strip_start, (bm_start_end _ ok).
    rewrite collect_multi_upto.
    + now rewrite EH.
    + unfold mids. apply Forall_map.
      eapply Forall_impl; [|exact HT]. intros l Hl. cbv beta.
      now rewrite strip_middle_line.
    + rewrite (bm_end_strip _ ok). apply contains_refl.
  - unfold _extract_header_content. rewrite ES, (bm_mode _ ok).
    simpl content_multi. rewrite strip_start, startswith_refl.
    simpl andb. cbv iota. unfold slice_from. rewrite skipn_all.
    simpl truthy. cbv iota. unfold mids.
    now rewrite content_multi_wrapped.
Qed.

End BlankMiddle.

Ltac no_nl_tac :=
  unfold no_nl; simpl;
  let H := fresh in
  intros H; repeat (destruct H as [H|H]; [discriminate H|]); exact H.

Lemma blank_middle_html : blank_middle CommentRegistry.html_style.
Proof.
  constructor; try reflexivity; try discriminate; try no_nl_tac.
  - repeat split; try discriminate. no_nl_tac.
  - repeat constructor.
Qed.

Lemma blank_middle_vhdl : blank_middle CommentRegistry.vhdl_style.
Proof.
  constructor; try reflexivity; try discriminate; try no_nl_tac.
  - repeat split; try discriminate. no_nl_tac.
  - constructor.
Qed.

Lemma blank_middle_md : blank_middle CommentRegistry.md_style.
Proof.
  constructor; try reflexivity; try discriminate; try no_nl_tac.
  - repeat split; try discriminate. no_nl_tac.
  - constructor.
Qed.

(** C3 (amended): for every registered style other than the C one
    ["/*"], [" *"], [" */"], and every text none of whose lines, trimmed,
    contains the end marker of a multi-line style, detection on the wrapped
    text returns the whole wrapped text, and de-commenting it gives the text
    back with every line trimmed on both sides. *)
Theorem wrap_detect_roundtrip (T : str) (cs : comment_style) :
  CommentRegistry.registered cs = true ->
  cs <> CommentRegistry.c_style ->
  (eqb (start cs) (middle cs) = false ->
   Forall (fun l => contains (end_ cs) (strip l) = false) (split_nl T)) ->
  let H := create_header_comment T cs in
  extract_existing_header H cs = Some H
  /\ _extract_header_content H cs = join_nl (map strip (split_nl T)).
Proof.
  intros Hr Hc HT.
  destruct (registered_cases cs Hr) as [-> | [-> | [-> | [-> | [-> | ->]]]]].
  - apply (roundtrip_single _ T (proj1 plain_hash) (proj2 plain_hash)).
  - apply (roundtrip_single _ T (proj1 plain_slash) (proj2 plain_slash)).
  - congruence.
  - apply (roundtrip_multi _ blank_middle_html), HT. reflexivity.
  - apply (roundtrip_multi _ blank_middle_vhdl), HT. reflexivity.
  - apply (roundtrip_multi _ blank_middle_md), HT. reflexivity.
Qed.

Lemma wrap_detect_roundtrip_witness :
  _extract_header_content
    (create_header_comment indented_text CommentRegistry.html_style)
    CommentRegistry.html_style
  = lit "a" ++ NL :: lit "b".
Proof.
  apply (wrap_detect_roundtrip indented_text CommentRegistry.html_style).
  - reflexivity.
  - discriminate.
  - intros _. vm_compute. repeat constructor.
Defined.

(** C3, as stated, fails: de-commenting also drops the white space in front
    of a line, in every style; and in the C style the end line [" */"] comes
    back as a content line ["/"]. *)
Lemma roundtrip_loses_indentation :
  (let H := create_header_comment indented_text CommentRegistry.hash_style in
   extract_existing_header H CommentRegistry.hash_style = Some H
   /\ _extract_header_content H CommentRegistry.hash_style
      = lit "a" ++ NL :: lit "b"
   /\ ~ same_modulo_trailing
          (_extract_header_content H CommentRegistry.hash_style)
          indented_text)
  /\
  (let H := create_header_comment (lit "Copyright") CommentRegistry.c_style in
   extract_existing_header H CommentRegistry.c_style = Some H
   /\ _extract_header_content H CommentRegistry.c_style
      = lit "Copyright" ++ NL :: lit "/"
   /\ ~ same_modulo_trailing
          (_extract_header_content H CommentRegistry.c_style)
          (lit "Copyright")).
Proof.
  cbv zeta.
  repeat split; try reflexivity; unfold same_modulo_trailing; vm_compute;
    discriminate.
Qed.

End RoundTrip.

(** ** Running twice *)

Module Rerun.
Import Defs.
Import Py PyFacts StripFacts TrimFacts LoopFacts LicenseHeaderManager.
Import HeaderFacts BodyFacts WrapFacts MarkerFacts.

Lemma remove_found (C h : str) (cs : comment_style) :
  extract_existing_header C cs = Some h -> h <> [] ->
  remove_existing_header C cs = removal_of h C cs.
Proof.
  intros E Hh. unfold remove_existing_header. rewrite E.
  destruct h; [congruence | reflexivity].
Qed.

Lemma split_nl_app' (a b : str) :
  split_nl (a ++ NL :: b) = split_nl a ++ split_nl b.
Proof.
  rewrite split_nl_app.
  rewrite (app_removelast_last [] (split_nl_not_nil a)) at 3.
  now rewrite <- app_assoc.
Qed.

Lemma new_content_assembled (T C : str) (cs : comment_style) :
  let lines := split_nl C in
  new_content T cs C
    = assembled (if has_shebang lines then Some (nth 0 lines []) else None)
        (create_header_comment T cs) (remaining_content cs C).
Proof.
  unfold new_content, assembled. cbv zeta.
  destruct (has_shebang (split_nl C));
    destruct (remaining_content cs C); reflexivity.
Qed.

Lemma shebang_line_of (C : str) :
  let lines := split_nl C in
  shebang_line (if has_shebang lines then Some (nth 0 lines []) else None).
Proof.
  cbv zeta. destruct (has_shebang (split_nl C)) eqn:E; simpl; [|exact I].
  split; [apply nth0_split_no_nl|].
  unfold has_shebang in E. now destruct (split_nl C).
Qed.

Lemma split_assembled (sbo : option str) (H B : str) :
  shebang_line sbo ->
  split_nl (assembled sbo H B) = pre_lines sbo ++ split_nl H ++ split_nl B.
Proof.
  destruct sbo as [sb|]; simpl.
  - intros [Hn _]. now rewrite split_line_app, split_nl_app'.
  - intros _. apply split_nl_app'.
Qed.

Lemma body_ok_head (cs : comment_style) (c : ascii) (B : str) :
  body_ok cs (c :: B) = true -> Ascii.eqb c NL = false.
Proof.
  unfold body_ok. destruct (Ascii.eqb c NL) eqn:E; [|reflexivity].
  simpl split_nl. rewrite E. simpl. discriminate.
Qed.

Lemma body_ok_lstrip (cs : comment_style) (B : str) :
  body_ok cs B = true -> lstrip_nl B = B.
Proof.
  destruct B as [|c B]; [reflexivity|]. intros H.
  apply body_ok_head in H. simpl. now rewrite H.
Qed.

Lemma body_ok_nonblank (cs : comment_style) (B : str) :
  body_ok cs B = true -> B <> [] ->
  exists l rest, split_nl B = l :: rest /\ blank l = false.
Proof.
  intros H Hne. pose proof (split_nl_not_nil B) as Hs.
  destruct (split_nl B) as [|l rest] eqn:E; [congruence|].
  exists l, rest. split; [reflexivity|].
  unfold body_ok in H. rewrite E in H. destruct B; [congruence|].
  simpl nth in H. apply andb_true_iff in H. destruct H as [H _].
  now apply negb_true_iff in H.
Qed.

Lemma join_body_lines (B : str) : join_nl (body_lines B) = B.
Proof. destruct B; [reflexivity | apply join_split]. Qed.

Section Lines.
Variable cs : comment_style.
Variable sbo : option str.
Variables (h0 : str) (hs : list str).
Variable B : str.
Hypothesis sb_ok : shebang_line sbo.
Hypothesis h0_nonblank : blank h0 = false.
Hypothesis h0_not_sb : startswith h0 (lit "#!") = false.
Hypothesis B_ok : body_ok cs B = true.

Let Hl := h0 :: hs.
Let lines := pre_lines sbo ++ Hl ++ split_nl B.
Let i := length (pre_lines sbo).

Lemma lines_shebang :
  has_shebang lines = match sbo with Some _ => true | None => false end.
Proof.
  unfold lines, Hl. destruct sbo as [sb|]; simpl.
  - apply sb_ok.
  - exact h0_not_sb.
Qed.

Lemma lines_start : (if has_shebang lines then 1 else 0) = i.
Proof. rewrite lines_shebang. unfold i. now destruct sbo. Qed.

Lemma lines_preserved :
  (if has_shebang lines then [nth 0 lines []] else []) = pre_lines sbo.
Proof. rewrite lines_shebang. unfold lines. now destruct sbo. Qed.

Lemma lines_skip_pre : skipn i lines = Hl ++ split_nl B.
Proof. unfold i, lines. now destruct sbo. Qed.

Lemma lines_header_idx : skip_blank (skipn i lines) i = i.
Proof.
  rewrite lines_skip_pre. unfold Hl. simpl. now rewrite h0_nonblank.
Qed.

Lemma lines_nth : nth i lines [] = h0.
Proof. unfold i, lines. now destruct sbo. Qed.

Lemma lines_length : length lines = i + length Hl + length (split_nl B).
Proof. unfold lines, i. rewrite !length_app. lia. Qed.

Lemma lines_long : (length lines <=? i) = false.
Proof. apply Nat.leb_gt. rewrite lines_length. unfold Hl. simpl. lia. Qed.

Lemma lines_skip_header :
  skipn (i + length Hl) lines = split_nl B.
Proof.
  rewrite skipn_add, lines_skip_pre.
  rewrite skipn_app, Nat.sub_diag, skipn_all. reflexivity.
Qed.

Lemma lines_tail :
  let j := i + length Hl in
  let k := skip_blank (skipn j lines) j in
  (if k <? length lines then skipn k lines else []) = body_lines B.
Proof.
  cbv zeta. rewrite lines_skip_header. set (j := i + length Hl).
  assert (Hlen : length lines = j + length (split_nl B))
    by (unfold j; apply lines_length).
  assert (Hskip : skipn j lines = split_nl B)
    by (unfold j; apply lines_skip_header).
  clearbody j. clear sb_ok h0_nonblank h0_not_sb.
  destruct (list_eq_dec ascii_dec B []) as [EB|EB].
  - rewrite EB in *. simpl split_nl in *. simpl skip_blank.
    simpl length in Hlen.
    assert (E : (S j <? length lines) = false)
      by (apply Nat.ltb_ge; lia).
    now rewrite E.
  - destruct (body_ok_nonblank cs B B_ok EB) as [l [rest [E Hb]]].
    rewrite E in *. simpl skip_blank. rewrite Hb.
    assert (E' : (j <? length lines) = true)
      by (apply Nat.ltb_lt; simpl length in Hlen; lia).
    rewrite E', Hskip. unfold body_lines. rewrite E.
    destruct B; [congruence | reflexivity].
Qed.

End Lines.

(** Once removal gives back the shebang line and the body, the new content
    is the content that was there. *)
Lemma rerun_from_removal (T : str) (cs : comment_style) (sbo : option str)
    (B h0 : str) (hs : list str) :
  shebang_line sbo ->
  blank h0 = false ->
  startswith h0 (lit "#!") = false ->
  body_ok cs B = true ->
  let H := create_header_comment T cs in
  split_nl H = h0 :: hs ->
  remove_existing_header (assembled sbo H B) cs
    = join_nl (pre_lines sbo ++ body_lines B) ->
  new_content T cs (assembled sbo H B) = assembled sbo H B.
Proof.
  intros Hsb Hb Hns HB H EH Hrem.
  assert (ES : split_nl (assembled sbo H B)
               = pre_lines sbo ++ (h0 :: hs) ++ split_nl B)
    by (rewrite split_assembled, EH; auto).
  assert (Hrc : remaining_content cs (assembled sbo H B) = B).
  { unfold remaining_content. rewrite Hrem, ES.
    rewrite (lines_shebang sbo h0 hs B Hsb Hns).
    destruct sbo as [sb|].
    - simpl nth. simpl pre_lines. simpl app.
      rewrite startswith_join_cons. unfold slice_from.
      destruct B as [|c B'].
      + simpl. now rewrite skipn_all.
      + unfold body_lines.
        rewrite join_nl_cons by apply split_nl_not_nil.
        rewrite join_split, skipn_length_app, lstrip_nl_NL.
        now rewrite !(body_ok_lstrip cs _ HB).
    - simpl. rewrite join_body_lines. now apply (body_ok_lstrip cs). }
  rewrite new_content_assembled. cbv zeta. rewrite Hrc, ES.
  rewrite (lines_shebang sbo h0 hs B Hsb Hns).
  now destruct sbo.
Qed.

Lemma collect_single_body (m B : str) :
  m <> [] -> body_ok (mk_style m m m) B = true ->
  collect_single m (split_nl B) = [].
Proof.
  intros Hm HB. destruct (list_eq_dec ascii_dec B []) as [->|Hne].
  - simpl. destruct m; [congruence | reflexivity].
  - pose proof (split_nl_not_nil B) as Hs.
    unfold body_ok in HB. simpl start in HB. simpl middle in HB.
    rewrite eqb_refl in HB.
    destruct B as [|c B']; [congruence|].
    destruct (split_nl (c :: B')) as [|l rest]; [congruence|].
    simpl nth in HB. apply andb_true_iff in HB. destruct HB as [H1 H2].
    apply negb_true_iff in H1, H2. unfold blank in H1.
    apply negb_false_iff in H1.
    simpl. now rewrite H2, H1.
Qed.

(** Single-line styles: removal on a file that already carries the fresh
    header gives back the shebang line and the body. *)
Lemma removal_single (m T : str) (sbo : option str) (B : str) :
  plain_marker m -> not_shebang m ->
  let cs := mk_style m m m in
  shebang_line sbo ->
  body_ok cs B = true ->
  let H := create_header_comment T cs in
  exists h0 hs,
    split_nl H = h0 :: hs /\ blank h0 = false
    /\ startswith h0 (lit "#!") = false
    /\ remove_existing_header (assembled sbo H B) cs
       = join_nl (pre_lines sbo ++ body_lines B).
Proof.
  intros Hp Hs cs Hsb HB H.
  assert (EH : H = join_nl (map (comment_line m) (split_nl T))).
  { unfold H, create_header_comment. simpl. now rewrite eqb_refl. }
  assert (EHl : split_nl H = map (comment_line m) (split_nl T)).
  { rewrite EH. apply split_join.
    - apply map_not_nil, split_nl_not_nil.
    - apply comment_lines_no_nl, Hp. }
  pose proof (split_nl_not_nil T) as Hne.
  destruct (split_nl T) as [|t0 ts] eqn:ET; [congruence|].
  simpl map in EHl, EH.
  set (h0 := comment_line m t0) in *.
  set (hs := map (comment_line m) ts) in *.
  assert (Hb : blank h0 = false) by apply (blank_comment_line _ Hp).
  assert (Hn : startswith h0 (lit "#!") = false)
    by apply (comment_line_not_shebang _ Hp _ Hs).
  exists h0, hs. repeat split; try assumption.
  assert (ES : split_nl (assembled sbo H B)
               = pre_lines sbo ++ (h0 :: hs) ++ split_nl B)
    by (rewrite split_assembled, EHl; auto).
  pose proof (lines_start sbo h0 hs B Hsb Hn) as L1.
  pose proof (lines_preserved sbo h0 hs B Hsb Hn) as L2.
  pose proof (lines_header_idx sbo h0 hs B Hsb Hb) as L3.
  pose proof (lines_long sbo h0 hs B) as L4.
  pose proof (lines_nth sbo h0 hs B Hsb) as L5.
  pose proof (lines_skip_pre sbo h0 hs B Hsb) as L6.
  pose proof (lines_tail cs sbo h0 hs B Hsb HB) as L7. cbv zeta in L7.
  set (lines := pre_lines sbo ++ (h0 :: hs) ++ split_nl B) in *.
  set (i := length (pre_lines sbo)) in *.
  assert (Hh0 : h0 <> []) by apply (comment_line_not_nil _ Hp).
  assert (HH : H <> []) by (rewrite EH; now apply join_nl_not_nil).
  assert (EX : extract_existing_header (assembled sbo H B) cs = Some H).
  { unfold extract_existing_header. rewrite ES. fold lines.
    rewrite L1, L3, L4, L5, L6. simpl start. simpl middle.
    rewrite eqb_refl.
    assert (Hst : startswith (strip h0) m = true).
    { unfold h0.
      now rewrite (strip_comment_line _ Hp), (startswith_comment_line _ Hp). }
    assert (Hc : collect_single m ((h0 :: hs) ++ split_nl B) = h0 :: hs).
    { change (h0 :: hs) with (map (comment_line m) (t0 :: ts)).
      rewrite (collect_single_wrapped _ Hp).
      now rewrite (collect_single_body m B (proj1 Hp) HB), app_nil_r. }
    rewrite Hst, Hc. simpl negb. cbv iota. now rewrite EH. }
  rewrite (remove_found _ _ _ EX HH). unfold removal_of.
  rewrite ES. fold lines. rewrite L2, L1, L3, L4. simpl start. simpl middle.
  rewrite eqb_refl, EHl, L6, match_header_wrapped.
  fold i in L7. now rewrite L7.
Qed.

(** Multi-line styles: removal on a file that already carries the fresh
    header gives back the shebang line and the body. *)
Lemma removal_multi (cs : comment_style) (T : str) (sbo : option str)
    (B : str) :
  block_style cs ->
  header_ok cs T = true ->
  shebang_line sbo ->
  body_ok cs B = true ->
  let H := create_header_comment T cs in
  exists h0 hs,
    split_nl H = h0 :: hs /\ blank h0 = false
    /\ startswith h0 (lit "#!") = false
    /\ remove_existing_header (assembled sbo H B) cs
       = join_nl (pre_lines sbo ++ body_lines B).
Proof.
  intros ok HT Hsb HB H.
  set (mids := map (comment_line (middle cs)) (split_nl T)).
  set (h0 := start cs). set (hs := mids ++ [end_ cs]).
  assert (EH : H = join_nl (h0 :: hs)).
  { unfold H, create_header_comment. now rewrite (bs_mode _ ok). }
  assert (EHl : split_nl H = h0 :: hs).
  { rewrite EH. apply split_join; [discriminate|].
    constructor; [apply (bs_start _ ok)|].
    apply Forall_app. split.
    - apply comment_lines_no_nl, (bs_middle_nl _ ok).
    - constructor; [apply (bs_end_nl _ ok) | constructor]. }
  assert (Hstrip : strip h0 = h0).
  { destruct (bs_start _ ok) as [_ [Hr [Hl _]]]. now apply strip_fixed. }
  assert (Hb : blank h0 = false).
  { unfold blank. rewrite Hstrip.
    destruct (bs_start _ ok) as [Hne _]. unfold h0. now destruct (start cs). }
  assert (Hn : startswith h0 (lit "#!") = false) by apply (bs_start_sb _ ok).
  exists h0, hs. repeat split; try assumption.
  assert (ES : split_nl (assembled sbo H B)
               = pre_lines sbo ++ (h0 :: hs) ++ split_nl B)
    by (rewrite split_assembled, EHl; auto).
  pose proof (lines_start sbo h0 hs B Hsb Hn) as L1.
  pose proof (lines_preserved sbo h0 hs B Hsb Hn) as L2.
  pose proof (lines_header_idx sbo h0 hs B Hsb Hb) as L3.
  pose proof (lines_long sbo h0 hs B) as L4.
  pose proof (lines_nth sbo h0 hs B Hsb) as L5.
  pose proof (lines_skip_pre sbo h0 hs B Hsb) as L6.
  pose proof (lines_tail cs sbo h0 hs B Hsb HB) as L7. cbv zeta in L7.
  set (lines := pre_lines sbo ++ (h0 :: hs) ++ split_nl B) in *.
  set (i := length (pre_lines sbo)) in *.
  assert (Hidx : header_idx lines = i)
    by (unfold header_idx; now rewrite L1, L3).
  assert (EX : exists c h,
             extract_existing_header (assembled sbo H B) cs = Some (c :: h)).
  { apply extract_multi_found; rewrite ?ES; fold lines; rewrite ?Hidx, ?L5.
    - apply (bs_mode _ ok).
    - now apply Nat.leb_gt.
    - rewrite Hstrip. apply startswith_refl. }
  destruct EX as [c [h EX]].
  rewrite (remove_found _ _ _ EX) by discriminate. unfold removal_of.
  rewrite ES. fold lines. rewrite L2, L1, L3, L4, (bs_mode _ ok), L5, L6.
  rewrite Hstrip. fold h0. rewrite startswith_refl.
  assert (Hsk : skip_block (end_ cs) ((h0 :: hs) ++ split_nl B) i
                = i + length (h0 :: hs)).
  { unfold hs.
    replace ((h0 :: mids ++ [end_ cs]) ++ split_nl B)
      with ((h0 :: mids) ++ end_ cs :: split_nl B)
      by (simpl; now rewrite <- app_assoc).
    rewrite skip_block_upto.
    - simpl length. rewrite length_app. simpl. lia.
    - constructor; [apply (bs_start_end _ ok)|].
      unfold header_ok in HT. rewrite (bs_mode _ ok) in HT.
      unfold mids. apply Forall_map. apply Forall_forall. intros l Hl.
      rewrite forallb_forall in HT. specialize (HT l Hl).
      now apply negb_true_iff in HT.
    - apply contains_refl. }
  rewrite Hsk. fold i in L7. now rewrite L7.
Qed.

Lemma block_style_c : block_style CommentRegistry.c_style.
Proof.
  constructor; try reflexivity; try RoundTrip.no_nl_tac.
  repeat split; try discriminate. RoundTrip.no_nl_tac.
Qed.

Lemma block_style_of_blank_middle (cs : comment_style) :
  blank_middle cs -> block_style cs.
Proof. intros []; constructor; assumption. Qed.

(** On a registered style, with a settled body and header, a second pass
    computes the content the first pass produced. *)
Lemma rerun_unchanged (T C : str) (cs : comment_style) :
  CommentRegistry.registered cs = true ->
  settled cs T C = true ->
  new_content T cs (new_content T cs C) = new_content T cs C.
Proof.
  intros Hr Hs. apply andb_true_iff in Hs. destruct Hs as [HT HB].
  rewrite (new_content_assembled T C cs). cbv zeta.
  pose proof (shebang_line_of C) as Hsb. cbv zeta in Hsb.
  set (sbo := if has_shebang (split_nl C)
              then Some (nth 0 (split_nl C) []) else None) in *.
  set (B := remaining_content cs C) in *.
  assert (R : exists h0 hs,
             split_nl (create_header_comment T cs) = h0 :: hs
             /\ blank h0 = false
             /\ startswith h0 (lit "#!") = false
             /\ remove_existing_header
                  (assembled sbo (create_header_comment T cs) B) cs
                = join_nl (pre_lines sbo ++ body_lines B)).
  { clearbody sbo B.
    destruct (registered_cases cs Hr) as [-> | [-> | [-> | [-> | [-> | ->]]]]].
    - apply (removal_single (lit "#") T sbo B
               (proj1 plain_hash) (proj2 plain_hash) Hsb HB).
    - apply (removal_single (lit "//") T sbo B
               (proj1 plain_slash) (proj2 plain_slash) Hsb HB).
    - apply (removal_multi _ T sbo B block_style_c HT Hsb HB).
    - apply (removal_multi _ T sbo B
               (block_style_of_blank_middle _ RoundTrip.blank_middle_html)
               HT Hsb HB).
    - apply (removal_multi _ T sbo B
               (block_style_of_blank_middle _ RoundTrip.blank_middle_vhdl)
               HT Hsb HB).
    - apply (removal_multi _ T sbo B
               (block_style_of_blank_middle _ RoundTrip.blank_middle_md)
               HT Hsb HB). }
  destruct R as [h0 [hs [EHl [Hb [Hn Hrem]]]]].
  now apply (rerun_from_removal T cs sbo B h0 hs).
Qed.

End Rerun.

(** ** [process_file], twice *)

Module Idempotence.
Import Defs.
Import Py PyFacts LicenseHeaderManager ShebangFacts Rerun.

Lemma write_file_other (w : world) (p q c : str) :
  eqb q p = false -> files (write_file w p c) q = files w q.
Proof. intros H. simpl. now rewrite H. Qed.

Lemma universal_id (s : str) : ~ In CR s -> universal_newlines s = s.
Proof.
  induction s as [|c s IH]; [reflexivity|]. intros H. simpl.
  destruct (Ascii.eqb_spec c CR) as [->|_].
  - exfalso. apply H. now left.
  - rewrite IH; [reflexivity|]. intros Hin. apply H. now right.
Qed.

Lemma in_join (c : ascii) (ls : list str) :
  In c (join_nl ls) -> c = NL \/ exists l, In l ls /\ In c l.
Proof.
  induction ls as [|l ls IH]; [intros []|].
  destruct ls as [|l' ls].
  - simpl. intros H. right. exists l. auto.
  - rewrite join_nl_cons by discriminate. intros H.
    apply in_app_or in H. destruct H as [H|[H|H]].
    + right. exists l. split; [now left | assumption].
    + left. now symmetry.
    + destruct (IH H) as [->|[x [Hx Hc]]]; [now left|].
      right. exists x. split; [now right | assumption].
Qed.

Lemma in_join_intro (c : ascii) (l : str) (ls : list str) :
  In l ls -> In c l -> In c (join_nl ls).
Proof.
  induction ls as [|l0 ls IH]; [intros []|]. intros Hl Hc.
  destruct ls as [|l' ls].
  - destruct Hl as [<-|[]]. exact Hc.
  - rewrite join_nl_cons by discriminate. apply in_or_app.
    destruct Hl as [<-|Hl]; [now left|].
    right. right. now apply IH.
Qed.

Lemma in_split (c : ascii) (l s : str) :
  In l (split_nl s) -> In c l -> In c s.
Proof.
  intros Hl Hc. rewrite <- (join_split s). now apply (in_join_intro c l).
Qed.

Lemma in_rstrip (c : ascii) (s : str) : In c (rstrip s) -> In c s.
Proof.
  intros H. destruct (StripFacts.rstrip_prefix s) as [t [E _]].
  rewrite E. apply in_or_app. now left.
Qed.

Lemma in_comment_lines (c : ascii) (m T : str) :
  In c (join_nl (map (comment_line m) (split_nl T))) ->
  c = NL \/ c = SP \/ In c m \/ In c T.
Proof.
  intros H. destruct (in_join _ _ H) as [->|[l [Hl Hc]]]; [now left|].
  apply in_map_iff in Hl. destruct Hl as [t [<- Ht]].
  apply in_rstrip, in_app_or in Hc.
  destruct Hc as [Hc|[Hc|Hc]]; auto.
  right. right. right. now apply (in_split c t).
Qed.

Lemma in_header (c : ascii) (T : str) (cs : comment_style) :
  In c (create_header_comment T cs) ->
  c = NL \/ c = SP \/ In c (start cs) \/ In c (middle cs)
  \/ In c (end_ cs) \/ In c T.
Proof.
  unfold create_header_comment.
  destruct (eqb (start cs) (middle cs) && eqb (middle cs) (end_ cs)).
  - intros H. apply in_comment_lines in H. tauto.
  - intros H. destruct (in_join _ _ H) as [->|[l [Hl Hc]]]; [now left|].
    destruct Hl as [<-|Hl]; [tauto|]. simpl app in Hl.
    apply in_app_or in Hl. destruct Hl as [Hl|[<-|[]]]; [|tauto].
    assert (G : In c (join_nl (map (comment_line (middle cs))
                                 (split_nl T))))
      by now apply (in_join_intro c l).
    apply in_comment_lines in G. tauto.
Qed.

Lemma in_new_content (c : ascii) (T C : str) (cs : comment_style) :
  In c (new_content T cs C) ->
  c = NL \/ In c (create_header_comment T cs) \/ In c C.
Proof.
  rewrite new_content_assembled. cbv zeta.
  assert (HB : In c (remaining_content cs C) -> In c C).
  { destruct (BodyFacts.remaining_content_suffix C cs) as [pre E].
    intros H. rewrite E. apply in_or_app. now right. }
  unfold assembled. destruct (has_shebang (split_nl C)).
  - intros H. apply in_app_or in H. destruct H as [H|[H|H]].
    + right. right. now apply in_first_line.
    + left. now symmetry.
    + apply in_app_or in H. destruct H as [H|[H|H]]; auto.
  - intros H. apply in_app_or in H. destruct H as [H|[H|H]]; auto.
Qed.

Lemma registered_no_cr (cs : comment_style) :
  CommentRegistry.registered cs = true ->
  ~ In CR (start cs) /\ ~ In CR (middle cs) /\ ~ In CR (end_ cs).
Proof.
  intros Hr.
  destruct (MarkerFacts.registered_cases cs Hr)
    as [-> | [-> | [-> | [-> | [-> | ->]]]]]; simpl;
    repeat split; intros H;
    repeat (destruct H as [H|H]; [discriminate H|]); exact H.
Qed.

(** With no carriage return in the text read, in the rendered text or in
    the markers, what is written is read back as it is. *)
Lemma new_content_read_back (T raw : str) (cs : comment_style) :
  CommentRegistry.registered cs = true ->
  ~ In CR T ->
  let C := universal_newlines raw in
  universal_newlines (new_content T cs C) = new_content T cs C.
Proof.
  intros Hr HT C. apply universal_id. intros H.
  destruct (registered_no_cr cs Hr) as [H1 [H2 H3]].
  apply in_new_content in H. destruct H as [H|[H|H]].
  - discriminate H.
  - apply in_header in H.
    destruct H as [H|[H|[H|[H|[H|H]]]]]; try discriminate H; tauto.
  - now apply universal_no_cr in H.
Qed.

(** C1 (amended): on a registered style, when the body that the first run
    leaves after the new header is empty or starts with a line that is not
    blank and (single-line styles) is no comment line, when (multi-line
    styles) no wrapped line of the text contains the end marker, when the
    rendered text holds no carriage return, and when the template is not
    the file itself, a second run of [process_file] returns [False] and
    leaves every file as the first run left it; if the file can be written,
    the second run opens nothing for writing. *)
Theorem process_file_twice (suffix : str -> str)
    (self : LicenseHeaderManager.t) (w : world) (file_path : str)
    (cs : comment_style) (raw T C : str) :
  CommentRegistry.get_comment_style suffix (comment_registry self) file_path
    = Some cs ->
  CommentRegistry.registered cs = true ->
  read_text w file_path = Returned C ->
  eqb (template_file self) file_path = false ->
  read_text w (template_file self) = Returned raw ->
  format_template self (strip raw) = Formatted T ->
  ~ In CR T ->
  settled cs T C = true ->
  exists b1 w1 tr1 w2 tr2,
    process_file suffix self w file_path = (Returned b1, w1, tr1)
    /\ (b1 = true -> files w1 file_path = Some (Text (new_content T cs C)))
    /\ process_file suffix self w1 file_path = (Returned false, w2, tr2)
    /\ (forall q, files w2 q = files w1 q)
    /\ (write_mode_of w file_path = Writes ->
        w2 = w1
        /\ tr2 = [OpenRead file_path; OpenRead (template_file self)]).
Proof.
  intros Hcs Hr Hf Hne Ht Hfmt HT Hs.
  pose proof (rerun_unchanged T C cs Hr Hs) as Hfix.
  destruct (read_text_inv _ _ _ Hf) as [raw0 [Hraw EC]].
  pose proof (new_content_read_back T raw0 cs Hr HT) as Hback.
  cbv zeta in Hback. rewrite <- EC in Hback.
  set (nc := new_content T cs C) in *.
  assert (Tpl : forall c, read_text (write_file w file_path c)
                            (template_file self) = Returned raw).
  { intros c. unfold read_text in *. simpl. now rewrite Hne. }
  assert (P1 : process_file suffix self w file_path =
               if negb (eqb nc C)
               then match write_mode_of w file_path with
                    | Writes =>
                        (Returned true, write_file w file_path nc,
                         [OpenRead file_path; OpenRead (template_file self)]
                           ++ [OpenWrite file_path])
                    | OpenFails =>
                        (Returned false, w,
                         [OpenRead file_path; OpenRead (template_file self)]
                           ++ [OpenWrite file_path])
                    | WriteFails torn =>
                        (Returned false, write_file w file_path torn,
                         [OpenRead file_path; OpenRead (template_file self)]
                           ++ [OpenWrite file_path])
                    end
               else (Returned false, w,
                     [OpenRead file_path; OpenRead (template_file self)])).
  { unfold process_file, load_template. now rewrite Hcs, Hf, Ht, Hfmt. }
  destruct (eqb nc C) eqn:E; simpl negb in P1; cbv iota in P1.
  - exists false, w. eexists. exists w. eexists.
    split; [exact P1|]. split; [discriminate|]. split; [exact P1|].
    split; [reflexivity|]. intros _. now split.
  - destruct (write_mode_of w file_path) as [| |torn] eqn:Hw.
    + exists true, (write_file w file_path nc). eexists.
      exists (write_file w file_path nc). eexists.
      split; [exact P1|]. split; [intros _; apply write_file_read|].
      split; [|split; [reflexivity | intros _; now split]].
      unfold process_file, load_template.
      rewrite Hcs, read_written, Hback, Tpl, Hfmt.
      fold nc in Hfix. rewrite Hfix, eqb_refl. reflexivity.
    + exists false, w. eexists. exists w. eexists.
      split; [exact P1|]. split; [discriminate|]. split; [exact P1|].
      split; [reflexivity | discriminate].
    + exists false, (write_file w file_path torn). eexists.
      set (w1 := write_file w file_path torn).
      set (C2 := universal_newlines torn).
      destruct (eqb (new_content T cs C2) C2) eqn:E2.
      * exists w1. eexists. split; [exact P1|]. split; [discriminate|].
        split; [|split; [reflexivity | discriminate]].
        unfold process_file, load_template.
        unfold w1. rewrite Hcs, read_written, Tpl, Hfmt.
        fold C2. rewrite E2. reflexivity.
      * exists (write_file w1 file_path torn). eexists.
        split; [exact P1|]. split; [discriminate|].
        split; [|split; [|discriminate]].
        -- unfold process_file, load_template.
           unfold w1 at 1 2 3. rewrite Hcs, read_written, Tpl, Hfmt.
           fold C2. rewrite E2. simpl negb. cbv iota.
           simpl write_mode_of. rewrite Hw. reflexivity.
        -- intros q. simpl. now destruct (eqb q file_path).
Qed.

Lemma process_file_twice_witness :
  exists b1 w1 tr1 w2 tr2,
    process_file Pathlib.suffix (manager "Acme" 2024) hi_world
      hi_py = (Returned b1, w1, tr1)
    /\ (b1 = true ->
        files w1 hi_py
        = Some (Text (new_content (lit "Copyright 2024 Acme")
                        CommentRegistry.hash_style hi_before)))
    /\ process_file Pathlib.suffix (manager "Acme" 2024) w1 hi_py
       = (Returned false, w2, tr2)
    /\ (forall q, files w2 q = files w1 q)
    /\ (write_mode_of hi_world hi_py = Writes ->
        w2 = w1 /\ tr2 = [OpenRead hi_py; OpenRead template_path]).
Proof.
  apply (process_file_twice Pathlib.suffix (manager "Acme" 2024)
           hi_world hi_py CommentRegistry.hash_style
           scenario_template (lit "Copyright 2024 Acme") hi_before);
    try reflexivity.
  simpl. intros H.
  repeat (destruct H as [H|H]; [discriminate H|]). exact H.
Defined.

(** C1, as stated, fails: a Python file whose first line holds two spaces
    is rewritten by the first run and rewritten again, to another content,
    by the second, which returns [True].  So does an HTML file when the
    template text holds the end marker. *)
Lemma second_run_changes_file :
  let self := manager "Acme" 2024 in
  let w1 := write_file spaced_world spaced_py spaced_once in
  let w2 := write_file w1 spaced_py spaced_twice in
  CommentRegistry.registered CommentRegistry.hash_style = true
  /\ process_file Pathlib.suffix self spaced_world spaced_py
     = (Returned true, w1,
        [OpenRead spaced_py; OpenRead template_path; OpenWrite spaced_py])
  /\ process_file Pathlib.suffix self w1 spaced_py
     = (Returned true, w2,
        [OpenRead spaced_py; OpenRead template_path; OpenWrite spaced_py])
  /\ spaced_twice <> spaced_once
  /\ (let T := lit "a --> b" in
      let once := new_content T CommentRegistry.html_style (lit "x") in
      new_content T CommentRegistry.html_style once <> once).
Proof.
  cbv zeta. repeat split; try (vm_compute; reflexivity);
    vm_compute; discriminate.
Qed.

(** Why the rendered text must hold no carriage return: it is written as it
    is and read back as a newline, so that the second run sees a header of
    one line followed by a line of text, and writes again. *)
Lemma carriage_return_is_read_as_newline :
  let T := lit "Copyright 2024 A" ++ CR :: lit "B" in
  let once := new_content T CommentRegistry.hash_style hi_before in
  let w1 := write_file hi_world hi_py once in
  format_template cr_manager scenario_template = Formatted T
  /\ process_file Pathlib.suffix cr_manager hi_world hi_py
     = (Returned true, w1,
        [OpenRead hi_py; OpenRead template_path; OpenWrite hi_py])
  /\ read_text w1 hi_py
     = Returned (lit "# Copyright 2024 A" ++ NL :: lit "B"
                   ++ NL :: hi_before)
  /\ fst (fst (process_file Pathlib.suffix cr_manager w1 hi_py))
     = Returned true.
Proof.
  cbv zeta. repeat split; vm_compute; reflexivity.
Qed.

End Idempotence.

(** ** Removal against detection *)

Module Removal.
Import Defs.
Import Py PyFacts LicenseHeaderManager.

(** C2: the claim fails on the code.  In single-line mode detection steps
    over a blank line between comment lines and returns both comment lines
    as the header, while removal stops at the blank line: the second
    detected line stays in the file. *)
Theorem removal_stops_at_blank_line :
  extract_existing_header split_header CommentRegistry.hash_style
    = Some (lit "# a" ++ NL :: lit "# b")
  /\ remove_existing_header split_header CommentRegistry.hash_style
     = lit "# b" ++ NL :: lit "code" ++ [NL].
Proof. split; reflexivity. Qed.

(** Where no header is detected, removal returns the text as it is. *)
Lemma remove_no_header (C : str) (cs : comment_style) :
  extract_existing_header C cs = None ->
  remove_existing_header C cs = C.
Proof. intros H. unfold remove_existing_header. now rewrite H. Qed.

End Removal.

(** * Further properties *)

(** ** Selecting files *)

Module SelectionFacts.
Import Defs.
Import Py PyFacts.

Section Patterns.
Variable path_match : str -> str -> bool.

Lemma any_match_true (file_path : str) (patterns : list str) :
  any_match path_match file_path patterns = true <->
  exists pattern, In pattern patterns /\ path_match file_path pattern = true.
Proof.
  induction patterns as [|q more IH]; simpl.
  - split; [discriminate | intros [x [[] _]]].
  - destruct (path_match file_path q) eqn:E.
    + split; [intros _; exists q; auto | reflexivity].
    + rewrite IH. split.
      * intros [x [Hin Hx]]. exists x; auto.
      * intros [x [[<-|Hin] Hx]]; [congruence | exists x; auto].
Qed.

Lemma any_match_false (file_path : str) (patterns : list str) :
  any_match path_match file_path patterns = false <->
  forall pattern, In pattern patterns -> path_match file_path pattern = false.
Proof.
  induction patterns as [|q more IH]; simpl.
  - split; [intros _ x [] | reflexivity].
  - destruct (path_match file_path q) eqn:E.
    + split; [discriminate | intros H; rewrite <- E; apply H; auto].
    + rewrite IH. split.
      * intros H x [<-|Hin]; auto.
      * intros H x Hin. apply H; auto.
Qed.

(** X1: A file is processed exactly when no exclude pattern matches it and
    either there is no include pattern or some include pattern matches it:
    an exclude pattern wins over every include pattern, and an empty include
    list lets everything through. *)
Theorem should_process_file_iff (file_path : str)
    (include_patterns exclude_patterns : list str) :
  should_process_file path_match file_path include_patterns exclude_patterns
    = true
  <->
  (forall pattern, In pattern exclude_patterns ->
     path_match file_path pattern = false)
  /\ (include_patterns = []
      \/ exists pattern, In pattern include_patterns
                         /\ path_match file_path pattern = true).
Proof.
  unfold should_process_file.
  destruct (any_match path_match file_path exclude_patterns) eqn:Ex.
  - split; [discriminate|]. intros [H _].
    apply (proj2 (any_match_false _ _)) in H. congruence.
  - pose proof (proj1 (any_match_false _ _) Ex) as Hex.
    destruct include_patterns as [|i more].
    + split; auto.
    + destruct (any_match path_match file_path (i :: more)) eqn:Hin.
      * pose proof (proj1 (any_match_true _ _) Hin) as Hi. split; auto.
      * split; [discriminate|]. intros [_ [H|H]]; [discriminate|].
        apply (proj2 (any_match_true _ _)) in H. congruence.
Qed.

End Patterns.

End SelectionFacts.

(** ** Custom mappings *)

Module DictFacts.
Import Defs.
Import Py PyFacts.

Lemma eqb_sym (s t : str) : eqb s t = eqb t s.
Proof.
  destruct (eqb s t) eqn:E.
  - apply eqb_eq in E. subst. symmetry. apply eqb_refl.
  - destruct (eqb t s) eqn:E'; [|reflexivity].
    apply eqb_eq in E'. subst. now rewrite eqb_refl in E.
Qed.

Lemma dict_get_set {V} (d : dict V) (k k' : str) (v : V) :
  dict_get (dict_set d k v) k'
    = if eqb k k' then Some v else dict_get d k'.
Proof.
  induction d as [|[k0 v0] d IH]; simpl.
  - reflexivity.
  - destruct (eqb k0 k) eqn:E0; simpl.
    + apply eqb_eq in E0. subst k0.
      destruct (eqb k k'); reflexivity.
    + destruct (eqb k0 k') eqn:E1.
      * apply eqb_eq in E1. subst k0.
        rewrite eqb_sym in E0. now rewrite E0.
      * apply IH.
Qed.

Lemma dict_get_app {V} (a b : dict V) (k : str) :
  dict_get (a ++ b) k
    = match dict_get a k with Some v => Some v | None => dict_get b k end.
Proof.
  induction a as [|[k0 v0] a IH]; simpl; [reflexivity|].
  destruct (eqb k0 k); [reflexivity | apply IH].
Qed.

(** After [d.update(other)], a key bound in [other] has its last binding
    there, and any other key keeps its binding in [d]. *)
Lemma dict_get_update {V} (d other : dict V) (k : str) :
  dict_get (dict_update d other) k
    = match dict_get (rev other) k with
      | Some v => Some v
      | None => dict_get d k
      end.
Proof.
  unfold dict_update. revert d.
  induction other as [|[k1 v1] other IH]; intros d; simpl.
  - reflexivity.
  - rewrite IH, dict_get_app, dict_get_set. simpl.
    destruct (dict_get (rev other) k); [reflexivity|].
    destruct (eqb k1 k); reflexivity.
Qed.

(** X2: A registry built with custom mappings answers with the last custom
    binding of the lowercased suffix when there is one, and with the default
    table otherwise: custom styles override the defaults key by key and
    leave the other defaults in place. *)
Theorem custom_mappings_override (suffix : str -> str)
    (custom_mappings : option (dict comment_style)) (file_path : str) :
  let ext := lower (suffix file_path) in
  let custom := match custom_mappings with Some c => c | None => [] end in
  CommentRegistry.get_comment_style suffix
    (CommentRegistry.init custom_mappings) file_path
  = match dict_get (rev custom) ext with
    | Some cs => Some cs
    | None => dict_get CommentRegistry.DEFAULT_MAPPINGS ext
    end.
Proof.
  cbv zeta. unfold CommentRegistry.get_comment_style, CommentRegistry.init.
  destruct custom_mappings as [[|kv more]|]; try reflexivity.
  cbn [CommentRegistry.mappings]. apply dict_get_update.
Qed.

End DictFacts.

(** ** What [process_file] touches *)

Module ProcessFacts.
Import Defs MoreDefs.
Import Py PyFacts LicenseHeaderManager ShebangFacts.

Lemma process_file_shape (suffix : str -> str)
    (self : LicenseHeaderManager.t) (w : world) (file_path : str) :
  run_shape w file_path (template_file self)
    (process_file suffix self w file_path).
Proof.
  unfold process_file, load_template.
  destruct (CommentRegistry.get_comment_style _ _ _) as [cs|];
    [|constructor].
  destruct (read_text w file_path) as [C|e|] eqn:Hf;
    try (apply shape_unreadable; intros C0; rewrite Hf; discriminate).
  destruct (read_text w (template_file self)) as [raw|e|];
    [| destruct e; apply (shape_stopped _ _ _ C); (assumption || discriminate)
     | apply (shape_stopped _ _ _ C); (assumption || discriminate)].
  destruct (format_template self (strip raw)) as [T| |];
    try (apply (shape_stopped _ _ _ C); (assumption || discriminate)).
  destruct (eqb (new_content T cs C) C) eqn:E; simpl negb; cbv iota.
  - apply (shape_stopped _ _ _ C); (assumption || discriminate).
  - apply eqb_neq in E.
    destruct (write_mode_of w file_path) as [| |torn] eqn:Hw.
    + now apply (shape_written w file_path _ C).
    + now apply (shape_open_failed w file_path _ C (new_content T cs C)).
    + now apply (shape_write_failed w file_path _ C (new_content T cs C)).
Qed.

(** X3: [process_file] opens the file for reading, then the template, then the
    file for writing, and stops somewhere along that line: it opens no other
    path, writes at most once, and never writes before both reads. *)
Theorem process_file_opens (suffix : str -> str)
    (self : LicenseHeaderManager.t) (w : world) (file_path : str) :
  let tr := snd (process_file suffix self w file_path) in
  tr = []
  \/ tr = [OpenRead file_path]
  \/ tr = [OpenRead file_path; OpenRead (template_file self)]
  \/ tr = [OpenRead file_path; OpenRead (template_file self);
           OpenWrite file_path].
Proof.
  cbv zeta. destruct (process_file_shape suffix self w file_path); simpl;
    auto.
Qed.

(** X4: Whatever the outcome, [process_file] leaves every other file and the
    write permissions as they were, and a file is in the store afterwards
    exactly when it was before. *)
Theorem process_file_frame (suffix : str -> str)
    (self : LicenseHeaderManager.t) (w : world) (file_path : str) :
  let w1 := snd (fst (process_file suffix self w file_path)) in
  (forall q, q <> file_path -> files w1 q = files w q)
  /\ write_mode_of w1 = write_mode_of w
  /\ (forall q, files w1 q = None <-> files w q = None).
Proof.
  cbv zeta.
  assert (G : forall C c, read_text w file_path = Returned C ->
    (forall q, q <> file_path ->
       files (write_file w file_path c) q = files w q)
    /\ write_mode_of (write_file w file_path c) = write_mode_of w
    /\ (forall q, files (write_file w file_path c) q = None
                  <-> files w q = None)).
  { intros C c Hf. repeat split.
    - intros q Hq. apply eqb_neq in Hq. simpl. now rewrite Hq.
    - simpl. destruct (eqb q file_path) eqn:E; [discriminate | auto].
    - simpl. destruct (eqb q file_path) eqn:E; [|auto].
      apply eqb_eq in E. subst q. intros Hn.
      unfold read_text in Hf. rewrite Hn in Hf. discriminate. }
  destruct (process_file_shape suffix self w file_path) as
    [ | | | | C nc torn Hf Hne Hw | C nc Hf Hne Hw]; simpl fst; simpl snd;
    try (repeat split; tauto).
  - exact (G C torn Hf).
  - exact (G C nc Hf).
Qed.

(** X5: [process_file] returns [True] only when the text it has built
    differs from the text it read and it has written that text over the
    file.  In every other case the store is as it was, or the open for
    writing emptied the file and the write failed, and the file holds what
    that write left. *)
Theorem process_file_true_iff_replaced (suffix : str -> str)
    (self : LicenseHeaderManager.t) (w : world) (file_path : str) :
  let r := fst (fst (process_file suffix self w file_path)) in
  let w1 := snd (fst (process_file suffix self w file_path)) in
  (r = Returned true ->
     exists cs raw T C,
       CommentRegistry.get_comment_style suffix (comment_registry self)
         file_path = Some cs
       /\ read_text w file_path = Returned C
       /\ read_text w (template_file self) = Returned raw
       /\ format_template self (strip raw) = Formatted T
       /\ new_content T cs C <> C
       /\ write_mode_of w file_path = Writes
       /\ w1 = write_file w file_path (new_content T cs C))
  /\ (r <> Returned true ->
        w1 = w
        \/ exists torn, write_mode_of w file_path = WriteFails torn
                        /\ w1 = write_file w file_path torn).
Proof.
  cbv zeta. unfold process_file, load_template.
  destruct (CommentRegistry.get_comment_style _ _ _) as [cs|];
    [|split; [discriminate | now left]].
  destruct (read_text w file_path) as [C|e|] eqn:Hf;
    try (split; [discriminate | now left]).
  destruct (read_text w (template_file self)) as [raw|e|] eqn:Ht;
    [| destruct e; (split; [discriminate | now left])
     | split; [discriminate | now left]].
  destruct (format_template self (strip raw)) as [T| |] eqn:Hfmt;
    try (split; [discriminate | now left]).
  destruct (eqb (new_content T cs C) C) eqn:E; simpl negb; cbv iota;
    [split; [discriminate | now left]|].
  apply eqb_neq in E.
  destruct (write_mode_of w file_path) as [| |torn] eqn:Hw; simpl.
  - split; [|congruence]. intros _. exists cs, raw, T, C. auto 10.
  - split; [discriminate | now left].
  - split; [discriminate|]. intros _. right. now exists torn.
Qed.

Lemma process_file_frame_witness :
  files (snd (fst (process_file Pathlib.suffix (manager "Acme" 2024)
                     hi_world hi_py))) template_path
  = files hi_world template_path.
Proof.
  apply (proj1 (process_file_frame Pathlib.suffix (manager "Acme" 2024)
                  hi_world hi_py)).
  discriminate.
Defined.

Lemma process_file_true_iff_replaced_witness :
  exists cs raw T C,
    CommentRegistry.get_comment_style Pathlib.suffix
      (comment_registry (manager "Acme" 2024)) hi_py = Some cs
    /\ read_text hi_world hi_py = Returned C
    /\ read_text hi_world (template_file (manager "Acme" 2024))
       = Returned raw
    /\ format_template (manager "Acme" 2024) (strip raw) = Formatted T
    /\ new_content T cs C <> C
    /\ write_mode_of hi_world hi_py = Writes
    /\ snd (fst (process_file Pathlib.suffix (manager "Acme" 2024)
                   hi_world hi_py))
       = write_file hi_world hi_py (new_content T cs C).
Proof.
  apply (proj1 (process_file_true_iff_replaced Pathlib.suffix
                  (manager "Acme" 2024) hi_world hi_py)).
  reflexivity.
Defined.

End ProcessFacts.

(** ** The processing loop *)

Module MainFacts.
Import Defs MoreDefs.
Import Py PyFacts LicenseHeaderManager ShebangFacts ProcessFacts.

Section Loop.
Variable suffix : str -> str.
Variable should_process : str -> bool.
Variable self : LicenseHeaderManager.t.

Lemma isfile_in_store (w : world) (p : str) :
  isfile w p = true -> files w p <> None.
Proof. unfold isfile. now destruct (files w p). Qed.

Lemma readable_isfile (w : world) (p C : str) :
  read_text w p = Returned C -> isfile w p = true.
Proof.
  unfold read_text, isfile.
  destruct (files w p) as [[]|]; (reflexivity || discriminate).
Qed.

Lemma isfile_write_file (w : world) (p C c : str) :
  read_text w p = Returned C ->
  forall q, isfile (write_file w p c) q = isfile w q.
Proof.
  intros Hf q. pose proof (readable_isfile w p C Hf) as Hi.
  unfold isfile in *. simpl.
  destruct (eqb q p) eqn:E; [|reflexivity].
  apply eqb_eq in E. subst q. now rewrite Hi.
Qed.

Lemma same_or_torn_refl (w : world) (q : str) : same_or_torn w w q.
Proof. now left. Qed.

Lemma same_or_torn_trans (w w1 w2 : world) (q : str) :
  write_mode_of w1 = write_mode_of w ->
  same_or_torn w w1 q -> same_or_torn w1 w2 q -> same_or_torn w w2 q.
Proof.
  intros Hm [H1|[t1 [M1 H1]]] [H2|[t2 [M2 H2]]].
  - left. congruence.
  - right. exists t2. rewrite <- Hm. now split.
  - right. exists t1. split; [assumption | congruence].
  - right. exists t2. rewrite <- Hm. now split.
Qed.

Lemma process_file_summary (w : world) (p : str) :
  exists r w1 tr1,
    process_file suffix self w p = (r, w1, tr1)
    /\ (forall q, q <> p -> files w1 q = files w q)
    /\ (forall q, files w1 q = None <-> files w q = None)
    /\ (forall q, isfile w1 q = isfile w q)
    /\ write_mode_of w1 = write_mode_of w
    /\ (forall q, In (OpenWrite q) tr1 -> q = p)
    /\ (r = Returned true ->
        In (OpenWrite p) tr1 /\ write_mode_of w p = Writes)
    /\ (r <> Returned true -> forall q, same_or_torn w w1 q).
Proof.
  pose proof (process_file_frame suffix self w p) as F. cbv zeta in F.
  destruct F as [F1 [F3 F2]].
  assert (Hin : forall (q : str) (tr : list event),
            incl tr [OpenRead p; OpenRead (template_file self); OpenWrite p]
            -> In (OpenWrite q) tr -> q = p).
  { intros q tr Hi Hq. apply Hi in Hq.
    destruct Hq as [Hq|[Hq|[Hq|[]]]]; try discriminate Hq.
    now inversion Hq. }
  destruct (process_file_shape suffix self w p) as
    [ | Hf | C r Hf Hr | C nc Hf Hne Hw | C nc torn Hf Hne Hw
      | C nc Hf Hne Hw];
    do 3 eexists; (split; [reflexivity|]); simpl fst in F1, F2, F3;
    simpl snd in F1, F2, F3;
    (split; [exact F1|]); (split; [exact F2|]).
  - split; [reflexivity|]. split; [exact F3|].
    split; [intros q []|].
    split; [discriminate | intros _ q; apply same_or_torn_refl].
  - split; [reflexivity|]. split; [exact F3|].
    split; [intros q; apply Hin; intros x [<-|[]]; simpl; auto|].
    split; [discriminate | intros _ q; apply same_or_torn_refl].
  - split; [reflexivity|]. split; [exact F3|].
    split; [intros q; apply Hin; intros x [<-|[<-|[]]]; simpl; auto|].
    split; [congruence | intros _ q; apply same_or_torn_refl].
  - split; [reflexivity|]. split; [exact F3|].
    split; [intros q; apply Hin; apply incl_refl|].
    split; [discriminate | intros _ q; apply same_or_torn_refl].
  - split; [apply (isfile_write_file w p C torn Hf)|]. split; [exact F3|].
    split; [intros q; apply Hin; apply incl_refl|].
    split; [discriminate|]. intros _ q.
    destruct (eqb q p) eqn:E.
    + apply eqb_eq in E. subst q. right. exists torn.
      split; [exact Hw | apply write_file_read].
    + left. simpl. now rewrite E.
  - split; [apply (isfile_write_file w p C nc Hf)|]. split; [exact F3|].
    split; [intros q; apply Hin; apply incl_refl|].
    split; [intros _; simpl; auto | congruence].
Qed.

Lemma loop_ok_skip (w : world) (a : str) (more : list str)
    (res : outcome (list str) * world * list event) :
  loop_ok should_process w more res ->
  loop_ok should_process w (a :: more) res.
Proof.
  intros [I1 [I2 [I3 [I4 [I5 I6]]]]].
  split; [intros q Hq; apply I1; intros Hin; apply Hq; now right|].
  split; [exact I2|]. split; [exact I3|]. split; [exact I4|].
  split; [intros q Hq; right; now apply I5|].
  intros modified Hm. destruct (I6 modified Hm) as [J K].
  split; [|exact K].
  intros p Hp. destruct (J p Hp) as [J1 J2]. split; [now right | exact J2].
Qed.

Lemma main_loop_inv (paths : list str) : forall w : world,
  loop_ok should_process w paths
    (main_loop suffix should_process self w paths).
Proof.
  induction paths as [|a more IH]; intros w.
  - unfold loop_ok. simpl.
    split; [reflexivity|]. split; [reflexivity|]. split; [reflexivity|].
    split; [reflexivity|]. split; [now intros q|].
    intros m Hm. inversion Hm; subst m.
    split; [intros p [] | intros _ q; apply same_or_torn_refl].
  - simpl main_loop.
    destruct (isfile w a) eqn:Hi; simpl negb; cbv iota;
      [|apply loop_ok_skip, IH].
    destruct (should_process a) eqn:Hs; simpl negb; cbv iota;
      [|apply loop_ok_skip, IH].
    destruct (process_file_summary w a) as
      [r [w1 [tr1 [E [F1 [F2 [F3 [F4 [F5 [F6 F7]]]]]]]]]].
    rewrite E.
    destruct (IH w1) as [I1 [I2 [I3 [I4 [I5 I6]]]]].
    assert (W : forall q tr2,
              (forall q', In (OpenWrite q') tr2 -> In q' more) ->
              In (OpenWrite q) (tr1 ++ tr2) -> In q (a :: more)).
    { intros q tr2 H2 Hin. apply in_app_or in Hin.
      destruct Hin as [Hin|Hin].
      - left. symmetry. now apply F5.
      - right. now apply H2. }
    assert (X : forall q, ~ In q (a :: more) -> files w1 q = files w q).
    { intros q Hq. apply F1. intros ->. apply Hq. now left. }
    destruct r as [b| e|].
    + destruct (main_loop suffix should_process self w1 more)
        as [[r2 w2] tr2]. simpl fst in *. simpl snd in *.
      assert (C1 : forall q, ~ In q (a :: more) -> files w2 q = files w q).
      { intros q Hq. rewrite I1 by (intros Hin; apply Hq; now right).
        now apply X. }
      assert (C2 : forall q, files w2 q = None <-> files w q = None).
      { intros q. rewrite I2. apply F2. }
      assert (C3 : forall q, isfile w2 q = isfile w q).
      { intros q. rewrite I3. apply F3. }
      assert (C4 : write_mode_of w2 = write_mode_of w) by congruence.
      destruct r2 as [modified| e|]; unfold loop_ok; simpl fst; simpl snd;
        (split; [exact C1|]); (split; [exact C2|]); (split; [exact C3|]);
        (split; [exact C4|]); (split; [intros q; now apply W|]);
        intros m Hm; try discriminate Hm.
      injection Hm as <-.
      destruct (I6 modified eq_refl) as [J K].
      assert (J' : forall p, In p modified ->
                In p (a :: more) /\ should_process p = true
                /\ isfile w p = true /\ write_mode_of w p = Writes
                /\ In (OpenWrite p) (tr1 ++ tr2)).
      { intros p Hp. destruct (J p Hp) as [J1 [J2 [J3 [J4 J5]]]].
        split; [now right|]. split; [exact J2|].
        split; [now rewrite <- F3|]. split; [now rewrite <- F4|].
        apply in_or_app. now right. }
      destruct b.
      * destruct (F6 eq_refl) as [G1 G2].
        split; [|discriminate].
        intros p [<-|Hp]; [|now apply J'].
        split; [now left|]. split; [exact Hs|]. split; [exact Hi|].
        split; [exact G2|]. apply in_or_app. now left.
      * split; [exact J'|]. intros Hnil q.
        apply (same_or_torn_trans w w1 w2 q F4).
        -- apply F7. discriminate.
        -- now apply K.
    + unfold loop_ok; simpl fst; simpl snd.
      split; [exact X|]. split; [exact F2|]. split; [exact F3|].
      split; [exact F4|].
      split; [intros q Hin; left; symmetry; now apply F5|].
      intros m Hm. discriminate Hm.
    + unfold loop_ok; simpl fst; simpl snd.
      split; [exact X|]. split; [exact F2|]. split; [exact F3|].
      split; [exact F4|].
      split; [intros q Hin; left; symmetry; now apply F5|].
      intros m Hm. discriminate Hm.
Qed.

(** X6: The loop of [main] changes no file outside its candidate list and
    opens none of them for writing. *)
Theorem main_loop_frame (w : world) (paths : list str) :
  let res := main_loop suffix should_process self w paths in
  (forall q, ~ In q paths -> files (snd (fst res)) q = files w q)
  /\ (forall q, In (OpenWrite q) (snd res) -> In q paths).
Proof.
  cbv zeta. destruct (main_loop_inv paths w) as [I1 [_ [_ [_ [I5 _]]]]].
  now split.
Qed.

(** X7: Every path the loop reports as modified is a candidate that was
    selected, was a file of the store at the start (one that
    [os.path.isfile] accepts and that can be written), and was opened for
    writing. *)
Theorem modified_files_were_written (w : world) (paths modified : list str)
    (p : str) :
  fst (fst (main_loop suffix should_process self w paths)) = Returned modified
  -> In p modified ->
  In p paths /\ should_process p = true /\ files w p <> None
  /\ In (OpenWrite p) (snd (main_loop suffix should_process self w paths))
  /\ isfile w p = true /\ write_mode_of w p = Writes.
Proof.
  intros Hr Hp. destruct (main_loop_inv paths w) as [_ [_ [_ [_ [_ I6]]]]].
  destruct (I6 modified Hr) as [J _].
  destruct (J p Hp) as [J1 [J2 [J3 [J4 J5]]]].
  repeat split; auto. now apply isfile_in_store.
Qed.

End Loop.

(** X8: When [main] exits with 0, every file of the store is as it was, or
    is one whose write failed after the open for writing emptied it and
    holds what that write left.  When [main] exits with 1, some candidate
    that passes the patterns and can be written was opened for writing. *)
Theorem main_exit_code (path_match : str -> str -> bool)
    (suffix : str -> str) (self : LicenseHeaderManager.t) (w : world)
    (paths include_patterns exclude_patterns : list str) :
  let res := main path_match suffix self w paths include_patterns
               exclude_patterns in
  (fst (fst res) = Returned 0 ->
     (forall q, same_or_torn w (snd (fst res)) q)
     /\ ((forall q torn, write_mode_of w q <> WriteFails torn) ->
         forall q, files (snd (fst res)) q = files w q))
  /\ (fst (fst res) = Returned 1 ->
      exists p, In p paths
                /\ should_process_file path_match p include_patterns
                     exclude_patterns = true
                /\ isfile w p = true
                /\ write_mode_of w p = Writes
                /\ In (OpenWrite p) (snd res)).
Proof.
  cbv zeta. unfold main.
  pose proof (main_loop_inv suffix
                (fun p => should_process_file path_match p include_patterns
                            exclude_patterns) self paths w) as I.
  destruct I as [_ [_ [_ [_ [_ I6]]]]].
  destruct (main_loop _ _ _ _ _) as [[r w'] tr]. simpl fst in I6.
  simpl snd in I6.
  destruct r as [modified| e|]; simpl;
    try (split; intros H; discriminate H).
  destruct (I6 modified eq_refl) as [J K].
  destruct modified as [|p more]; simpl.
  - split; [|discriminate]. intros _. split; [now apply K|].
    intros Hno q. destruct (K eq_refl q) as [H|[torn [H _]]];
      [exact H | now destruct (Hno q torn)].
  - split; [discriminate|]. intros _. exists p.
    destruct (J p (or_introl eq_refl)) as [J1 [J2 [J3 [J4 J5]]]]. auto.
Qed.

Lemma main_loop_frame_witness :
  files (snd (fst (main_loop Pathlib.suffix (fun _ => true)
                     (manager "Acme" 2024) hi_world [hi_py]))) template_path
  = files hi_world template_path.
Proof.
  apply (proj1 (main_loop_frame Pathlib.suffix (fun _ => true)
                  (manager "Acme" 2024) hi_world [hi_py])).
  intros [H|[]]. discriminate H.
Defined.

Lemma modified_files_were_written_witness :
  In hi_py [hi_py] /\ true = true /\ files hi_world hi_py <> None
  /\ In (OpenWrite hi_py)
       (snd (main_loop Pathlib.suffix (fun _ => true) (manager "Acme" 2024)
               hi_world [hi_py]))
  /\ isfile hi_world hi_py = true /\ write_mode_of hi_world hi_py = Writes.
Proof.
  apply (modified_files_were_written Pathlib.suffix (fun _ => true)
           (manager "Acme" 2024) hi_world [hi_py] [hi_py] hi_py).
  - reflexivity.
  - now left.
Defined.

Lemma main_exit_code_witness :
  exists p, In p [hi_py]
            /\ should_process_file (fun _ _ => true) p [] [] = true
            /\ isfile hi_world p = true
            /\ write_mode_of hi_world p = Writes
            /\ In (OpenWrite p)
                 (snd (main (fun _ _ => true) Pathlib.suffix
                         (manager "Acme" 2024) hi_world [hi_py] [] [])).
Proof.
  apply (proj2 (main_exit_code (fun _ _ => true) Pathlib.suffix
                  (manager "Acme" 2024) hi_world [hi_py] [] [])).
  reflexivity.
Defined.

End MainFacts.

(** ** What is kept of the text *)

Module TextFacts.
Import Defs MoreDefs.
Import Py PyFacts StripFacts TrimFacts LoopFacts LicenseHeaderManager.
Import HeaderFacts BodyFacts WrapFacts Rerun.

Lemma lstrip_nl_idem (s : str) : lstrip_nl (lstrip_nl s) = lstrip_nl s.
Proof.
  induction s as [|c s IH]; simpl; [reflexivity|].
  destruct (Ascii.eqb c NL) eqn:E; [assumption | simpl; now rewrite E].
Qed.

Lemma remaining_content_lstripped (C : str) (cs : comment_style) :
  lstrip_nl (remaining_content cs C) = remaining_content cs C.
Proof.
  unfold remaining_content.
  destruct (has_shebang (split_nl C)); apply lstrip_nl_idem.
Qed.

(** X9: Whatever the input and the style, the new content is the shebang line
    (if the input has one), the new header and a body, and that body is a
    tail end of the input, taken as it stands, that does not start with a
    newline: nothing of the text that is kept is rewritten. *)
Theorem new_content_keeps_tail (T C : str) (cs : comment_style) :
  let lines := split_nl C in
  let B := remaining_content cs C in
  new_content T cs C
    = assembled (if has_shebang lines then Some (nth 0 lines []) else None)
        (create_header_comment T cs) B
  /\ is_suffix B C
  /\ lstrip_nl B = B.
Proof.
  cbv zeta. split; [apply new_content_assembled|].
  split; [apply remaining_content_suffix | apply remaining_content_lstripped].
Qed.

(** X10: Removal returns its input, or the shebang line (if any) followed by the
    lines of the input from some index on: it drops lines from the front
    and neither changes nor reorders the lines it keeps. *)
Theorem remove_keeps_tail_lines (C : str) (cs : comment_style) :
  let lines := split_nl C in
  remove_existing_header C cs = C
  \/ exists k,
       (if has_shebang lines then 1 else 0) <= k
       /\ remove_existing_header C cs
          = join_nl ((if has_shebang lines then [nth 0 lines []] else [])
                     ++ skipn k lines).
Proof. apply remove_shape. Qed.

End TextFacts.

(** ** What detection returns *)

Module DetectFacts.
Import Defs MoreDefs.
Import Py PyFacts StripFacts TrimFacts LoopFacts LicenseHeaderManager.
Import HeaderFacts BodyFacts WrapFacts.

(** X11: A shebang line is invisible to detection: with it in front, the same
    header is found as without it. *)
Theorem shebang_invisible_to_detection (sb rest : str) (cs : comment_style) :
  no_nl sb ->
  startswith sb (lit "#!") = true ->
  has_shebang (split_nl rest) = false ->
  extract_existing_header (sb ++ NL :: rest) cs
    = extract_existing_header rest cs.
Proof.
  intros Hn Hs Hr. unfold extract_existing_header.
  rewrite split_line_app by assumption. rewrite Hr.
  set (L := split_nl rest).
  assert (Hsb : has_shebang (sb :: L) = true) by exact Hs.
  rewrite Hsb. change (skipn 1 (sb :: L)) with L.
  change (skipn 0 L) with L.
  rewrite !skip_blank_eq. simpl Nat.add.
  set (k := leading_blanks L).
  change (length (sb :: L) <=? S k) with (length L <=? k).
  change (nth (S k) (sb :: L) []) with (nth k L []).
  change (skipn (S k) (sb :: L)) with (skipn k L).
  reflexivity.
Qed.

Lemma shebang_invisible_to_detection_witness :
  extract_existing_header
    (lit "#!/bin/sh" ++ NL :: lit "# old" ++ NL :: lit "echo")
    CommentRegistry.hash_style
  = extract_existing_header (lit "# old" ++ NL :: lit "echo")
      CommentRegistry.hash_style.
Proof.
  apply (shebang_invisible_to_detection (lit "#!/bin/sh")
           (lit "# old" ++ NL :: lit "echo") CommentRegistry.hash_style).
  - unfold no_nl. simpl.
    intros H; repeat (destruct H as [H|H]; [discriminate H|]); exact H.
  - reflexivity.
  - reflexivity.
Defined.

Lemma leading_blanks_all (rest : list str) :
  Forall (fun l => blank l = true) rest ->
  leading_blanks rest = length rest.
Proof.
  induction 1 as [|l rest Hl _ IH]; simpl; [reflexivity|].
  now rewrite Hl, IH.
Qed.

(** X12: A file with nothing but blank lines after its optional shebang line,
    the empty file among them, has no header: detection returns [None] and
    removal returns the text as it is. *)
Theorem blank_file_has_no_header (C : str) (cs : comment_style) :
  let lines := split_nl C in
  Forall (fun l => blank l = true)
    (skipn (if has_shebang lines then 1 else 0) lines) ->
  extract_existing_header C cs = None
  /\ remove_existing_header C cs = C.
Proof.
  intros lines H.
  assert (E : extract_existing_header C cs = None).
  { unfold extract_existing_header. fold lines.
    rewrite skip_blank_eq, (leading_blanks_all _ H), length_skipn.
    replace (length lines <=?
             (if has_shebang lines then 1 else 0)
             + (length lines - (if has_shebang lines then 1 else 0)))
      with true; [reflexivity|].
    symmetry. apply Nat.leb_le. lia. }
  split; [exact E|]. unfold remove_existing_header. now rewrite E.
Qed.

Lemma blank_file_has_no_header_witness :
  extract_existing_header (lit "#!/bin/sh" ++ NL :: lit "  " ++ [NL])
    CommentRegistry.c_style = None
  /\ remove_existing_header (lit "#!/bin/sh" ++ NL :: lit "  " ++ [NL])
       CommentRegistry.c_style
     = lit "#!/bin/sh" ++ NL :: lit "  " ++ [NL].
Proof.
  apply (blank_file_has_no_header
           (lit "#!/bin/sh" ++ NL :: lit "  " ++ [NL])
           CommentRegistry.c_style).
  vm_compute. repeat constructor.
Defined.

Lemma lstrip_in (c : ascii) (s : str) : In c (lstrip s) -> In c s.
Proof.
  destruct (lstrip_suffix s) as [t [E _]]. intros H. rewrite E.
  apply in_or_app. now right.
Qed.

Lemma strip_no_nl (l : str) : no_nl l -> no_nl (strip l).
Proof.
  intros H Hin. apply (rstrip_no_nl l H). now apply lstrip_in.
Qed.

Lemma in_skipn {A} (x : A) (n : nat) (l : list A) :
  In x (skipn n l) -> In x l.
Proof.
  intros H. rewrite <- (firstn_skipn n l). apply in_or_app. now right.
Qed.

Lemma collect_single_lines (st : str) (rest : list str) :
  Forall (fun l => startswith l st = true /\ strip l = l
                   /\ exists l0, In l0 rest /\ l = strip l0)
    (collect_single st rest).
Proof.
  induction rest as [|l0 rest IH]; simpl; [constructor|].
  assert (Weak : Forall (fun l => startswith l st = true /\ strip l = l
                           /\ exists x, (l0 = x \/ In x rest) /\ l = strip x)
                   (collect_single st rest)).
  { eapply Forall_impl; [|exact IH]. cbv beta.
    intros l [H1 [H2 [x [Hx Hl]]]]. repeat split; auto. exists x; auto. }
  destruct (startswith (strip l0) st) eqn:E.
  - constructor; [|exact Weak].
    repeat split; [assumption | apply strip_idem | exists l0; auto].
  - destruct (negb (truthy (strip l0))); [exact Weak | constructor].
Qed.

(** X13: In single-line mode a detected header is made of input lines, trimmed:
    each of its lines starts with the start marker and has no white space
    around it. *)
Theorem single_line_header_lines (C h : str) (cs : comment_style) :
  eqb (start cs) (middle cs) = true ->
  extract_existing_header C cs = Some h ->
  Forall (fun l => startswith l (start cs) = true /\ strip l = l
                   /\ exists l0, In l0 (split_nl C) /\ l = strip l0)
    (split_nl h).
Proof.
  intros Hm. unfold extract_existing_header. rewrite Hm.
  set (lines := split_nl C).
  set (i := skip_blank _ _).
  destruct (length lines <=? i); [discriminate|].
  destruct (negb _); [discriminate|].
  pose proof (collect_single_lines (start cs) (skipn i lines)) as P.
  destruct (collect_single (start cs) (skipn i lines)) as [|x xs] eqn:Ec;
    [discriminate|].
  intros E. injection E as <-.
  assert (Q : Forall (fun l => startswith l (start cs) = true /\ strip l = l
                        /\ exists l0, In l0 lines /\ l = strip l0)
                (x :: xs)).
  { eapply Forall_impl; [|exact P]. cbv beta.
    intros l [H1 [H2 [l0 [Hin Hl]]]]. repeat split; auto.
    exists l0. split; [now apply in_skipn in Hin | assumption]. }
  change (Forall (fun l => startswith l (start cs) = true /\ strip l = l
                    /\ exists l0, In l0 lines /\ l = strip l0)
            (split_nl (join_nl (x :: xs)))).
  rewrite split_join; [exact Q | discriminate |].
  eapply Forall_impl; [|exact Q]. cbv beta.
  intros l [_ [_ [l0 [Hin ->]]]]. apply strip_no_nl.
  pose proof (split_nl_no_nl C) as N. rewrite Forall_forall in N.
  now apply N.
Qed.

Lemma single_line_header_lines_witness :
  Forall (fun l => startswith l (lit "#") = true /\ strip l = l
                   /\ exists l0, In l0 (split_nl split_header)
                                 /\ l = strip l0)
    (split_nl (lit "# a" ++ NL :: lit "# b")).
Proof.
  apply (single_line_header_lines split_header
           (lit "# a" ++ NL :: lit "# b") CommentRegistry.hash_style);
    reflexivity.
Defined.

Lemma collect_multi_run (en : str) (rest : list str) :
  rest <> [] ->
  exists k,
    0 < k /\ k <= length rest
    /\ collect_multi en rest = firstn k rest
    /\ Forall (fun l => contains en (strip l) = false) (firstn (k - 1) rest)
    /\ (k < length rest ->
        contains en (strip (nth (k - 1) rest [])) = true).
Proof.
  induction rest as [|l rest IH]; [congruence|]. intros _. simpl.
  destruct (contains en (strip l)) eqn:E.
  - exists 1. simpl. repeat split; auto; try lia; try constructor.
  - destruct rest as [|l' rest'].
    + exists 1. simpl. repeat split; auto; try lia; try constructor.
    + destruct IH as [k [K1 [K2 [K3 [K4 K5]]]]]; [discriminate|].
      exists (S k). rewrite K3. simpl length in *.
      replace (S k - 1) with (S (k - 1)) by lia.
      repeat split; try lia.
      * simpl. constructor; assumption.
      * intros Hlt. simpl nth. apply K5. lia.
Qed.

(** X14: In multi-line mode a detected header is a run of consecutive input
    lines, taken as they stand, from the first line that is not blank: no
    line of the run but the last contains, once trimmed, the end marker, and
    the run stops before the end of the file only at a line that does. *)
Theorem block_header_is_line_run (C h : str) (cs : comment_style) :
  let lines := split_nl C in
  let rest := skipn (header_idx lines) lines in
  eqb (start cs) (middle cs) = false ->
  extract_existing_header C cs = Some h ->
  exists k,
    0 < k /\ k <= length rest
    /\ h = join_nl (firstn k rest)
    /\ Forall (fun l => contains (end_ cs) (strip l) = false)
         (firstn (k - 1) rest)
    /\ (k < length rest ->
        contains (end_ cs) (strip (nth (k - 1) rest [])) = true).
Proof.
  intros lines rest Hm. unfold extract_existing_header. rewrite Hm.
  fold lines. fold (header_idx lines). fold rest.
  destruct (length lines <=? header_idx lines) eqn:Hl; [discriminate|].
  destruct (negb _); [discriminate|].
  assert (Hne : rest <> []).
  { unfold rest. apply Nat.leb_gt in Hl.
    rewrite (skipn_nth_cons _ _ ([] : str) Hl). discriminate. }
  destruct (collect_multi_run (end_ cs) rest Hne) as [k [K1 [K2 [K3 [K4 K5]]]]].
  rewrite K3.
  destruct (firstn k rest) eqn:Ef.
  - destruct rest; [congruence|]. destruct k; [lia | discriminate].
  - intros E. injection E as <-. exists k. rewrite Ef. auto.
Qed.

Lemma block_header_is_line_run_witness :
  exists k,
    0 < k /\ k <= 4
    /\ lit "/*" ++ NL :: lit " * old" ++ NL :: lit "x */"
       = join_nl (firstn k (split_nl (lit "/*" ++ NL :: lit " * old"
                                       ++ NL :: lit "x */" ++ NL :: lit "y")))
    /\ Forall (fun l => contains (lit " */") (strip l) = false)
         (firstn (k - 1)
            (split_nl (lit "/*" ++ NL :: lit " * old"
                         ++ NL :: lit "x */" ++ NL :: lit "y")))
    /\ (k < 4 ->
        contains (lit " */")
          (strip (nth (k - 1)
                    (split_nl (lit "/*" ++ NL :: lit " * old"
                                 ++ NL :: lit "x */" ++ NL :: lit "y")) []))
        = true).
Proof.
  apply (block_header_is_line_run
           (lit "/*" ++ NL :: lit " * old" ++ NL :: lit "x */"
              ++ NL :: lit "y")
           (lit "/*" ++ NL :: lit " * old" ++ NL :: lit "x */")
           CommentRegistry.c_style); reflexivity.
Defined.

End DetectFacts.

(** ** The shape of a wrapped header *)

Module HeaderShape.
Import Defs MoreDefs.
Import Py PyFacts StripFacts TrimFacts LoopFacts LicenseHeaderManager.
Import HeaderFacts WrapFacts MarkerFacts.

(** X15: With markers that hold no newline, the header has one line for every
    line of the text in the single-line form and two more, the start line
    and the end line, in the multi-line form; and no line made from a line
    of the text ends with white space. *)
Theorem header_line_count (T : str) (cs : comment_style) :
  no_nl (start cs) -> no_nl (middle cs) -> no_nl (end_ cs) ->
  let lines := split_nl (create_header_comment T cs) in
  let single := eqb (start cs) (middle cs) && eqb (middle cs) (end_ cs) in
  length lines = length (split_nl T) + (if single then 0 else 2)
  /\ Forall (fun l => rstrip l = l)
       (if single then lines else removelast (tl lines)).
Proof.
  intros Hs Hm He. cbv zeta. unfold create_header_comment.
  destruct (eqb (start cs) (middle cs) && eqb (middle cs) (end_ cs)).
  - rewrite split_join.
    + rewrite length_map. split; [lia|].
      apply Forall_map, Forall_forall. intros l _. apply rstrip_idem.
    + apply map_not_nil, split_nl_not_nil.
    + now apply comment_lines_no_nl.
  - rewrite split_join.
    + simpl length. rewrite length_app, length_map. simpl. split; [lia|].
      simpl tl. rewrite removelast_last.
      apply Forall_map, Forall_forall. intros l _. apply rstrip_idem.
    + discriminate.
    + constructor; [assumption|]. apply Forall_app. split.
      * now apply comment_lines_no_nl.
      * constructor; [assumption | constructor].
Qed.

Lemma header_line_count_witness :
  length (split_nl (create_header_comment (lit "a" ++ NL :: lit "b ")
                      CommentRegistry.c_style)) = 2 + 2
  /\ Forall (fun l => rstrip l = l)
       (removelast
          (tl (split_nl (create_header_comment (lit "a" ++ NL :: lit "b ")
                           CommentRegistry.c_style)))).
Proof.
  apply (header_line_count (lit "a" ++ NL :: lit "b ")
           CommentRegistry.c_style); RoundTrip.no_nl_tac.
Defined.

Lemma wrapped_block_detected (T : str) (cs : comment_style) :
  block_style cs ->
  exists c h,
    extract_existing_header (create_header_comment T cs) cs = Some (c :: h).
Proof.
  intros ok.
  set (mids := map (comment_line (middle cs)) (split_nl T)).
  assert (EH : create_header_comment T cs
               = join_nl (start cs :: mids ++ [end_ cs])).
  { unfold create_header_comment. now rewrite (bs_mode _ ok). }
  assert (EHl : split_nl (create_header_comment T cs)
                = start cs :: mids ++ [end_ cs]).
  { rewrite EH. apply split_join; [discriminate|].
    constructor; [apply (bs_start _ ok)|].
    apply Forall_app. split.
    - apply comment_lines_no_nl, (bs_middle_nl _ ok).
    - constructor; [apply (bs_end_nl _ ok) | constructor]. }
  assert (Hstrip : strip (start cs) = start cs).
  { destruct (bs_start _ ok) as [_ [Hr [Hl _]]]. now apply strip_fixed. }
  assert (Hb : blank (start cs) = false).
  { unfold blank. rewrite Hstrip.
    destruct (bs_start _ ok) as [Hne _]. now destruct (start cs). }
  assert (Hidx : header_idx (split_nl (create_header_comment T cs)) = 0).
  { rewrite EHl. unfold header_idx, has_shebang.
    rewrite (bs_start_sb _ ok). simpl. now rewrite Hb. }
  apply extract_multi_found.
  - apply (bs_mode _ ok).
  - rewrite Hidx, EHl. simpl. lia.
  - rewrite Hidx, EHl. simpl nth. rewrite Hstrip. apply startswith_refl.
Qed.

(** X16: For every style of the default table, wrapping and detection agree on
    the mode (the start marker equals the middle marker only when all three
    are equal), and the wrapped header of any text is detected as a
    header. *)
Theorem registered_styles_are_consistent (T : str) (cs : comment_style) :
  CommentRegistry.registered cs = true ->
  eqb (start cs) (middle cs) && eqb (middle cs) (end_ cs)
    = eqb (start cs) (middle cs)
  /\ exists c h,
       extract_existing_header (create_header_comment T cs) cs
         = Some (c :: h).
Proof.
  intros Hr.
  assert (Single : forall m, plain_marker m -> not_shebang m ->
            exists c h,
              extract_existing_header
                (create_header_comment T (mk_style m m m)) (mk_style m m m)
              = Some (c :: h)).
  { intros m Hp Hs.
    destruct (RoundTrip.roundtrip_single m T Hp Hs) as [E _].
    rewrite E.
    assert (Hne : create_header_comment T (mk_style m m m) <> []).
    { unfold create_header_comment. simpl. rewrite eqb_refl. simpl.
      pose proof (split_nl_not_nil T) as Hn.
      destruct (split_nl T) as [|t0 ts]; [congruence|]. simpl map.
      apply join_nl_not_nil, (comment_line_not_nil _ Hp). }
    destruct (create_header_comment T (mk_style m m m)); [congruence|].
    eauto. }
  destruct (registered_cases cs Hr) as [-> | [-> | [-> | [-> | [-> | ->]]]]];
    (split; [reflexivity|]).
  - apply (Single _ (proj1 plain_hash) (proj2 plain_hash)).
  - apply (Single _ (proj1 plain_slash) (proj2 plain_slash)).
  - apply wrapped_block_detected, Rerun.block_style_c.
  - apply wrapped_block_detected, Rerun.block_style_of_blank_middle,
      RoundTrip.blank_middle_html.
  - apply wrapped_block_detected, Rerun.block_style_of_blank_middle,
      RoundTrip.blank_middle_vhdl.
  - apply wrapped_block_detected, Rerun.block_style_of_blank_middle,
      RoundTrip.blank_middle_md.
Qed.

Lemma registered_styles_are_consistent_witness :
  exists c h,
    extract_existing_header
      (create_header_comment (lit "a */ b") CommentRegistry.c_style)
      CommentRegistry.c_style = Some (c :: h).
Proof.
  apply (proj2 (registered_styles_are_consistent (lit "a */ b")
                  CommentRegistry.c_style eq_refl)).
Defined.

End HeaderShape.

(** ** Templates without fields *)

Module FormatFacts.
Import Defs MoreDefs.
Import Py PyFacts LicenseHeaderManager.

(** X17: A template that holds no brace is its own rendering, whatever the year
    and the holder. *)
Theorem format_template_plain_text (self : LicenseHeaderManager.t)
    (template : str) :
  Forall (fun c => c <> "{"%char /\ c <> "}"%char) template ->
  format_template self template = Formatted template.
Proof.
  unfold format_template. induction 1 as [|c t [H1 H2] _ IH]; simpl.
  - reflexivity.
  - apply Ascii.eqb_neq in H1, H2. rewrite H1, H2, IH. reflexivity.
Qed.

Lemma format_template_plain_text_witness :
  format_template (manager "Acme" 2024) (lit "MIT") = Formatted (lit "MIT").
Proof.
  apply format_template_plain_text.
  repeat constructor; discriminate.
Defined.

End FormatFacts.

(** ** Exact removal *)

Module ExactRemoval.
Import Defs MoreDefs.
Import Py PyFacts StripFacts TrimFacts LoopFacts LicenseHeaderManager.
Import HeaderFacts BodyFacts WrapFacts MarkerFacts Rerun DetectFacts.

Lemma leading_blanks_app (blanks : list str) (b0 : str) (more : list str) :
  Forall (fun l => blank l = true) blanks -> blank b0 = false ->
  leading_blanks (blanks ++ b0 :: more) = length blanks.
Proof.
  intros H Hb. induction H as [|l blanks Hl _ IH]; simpl.
  - now rewrite Hb.
  - now rewrite Hl, IH.
Qed.

Section Layout.
Variable C : str.
Variable cs : comment_style.
Variables (blanks : list str) (b0 : str) (bs rest : list str).

Let lines := split_nl C.
Let s := if has_shebang lines then 1 else 0.
Let i := s + length blanks.
Let j := i + length (b0 :: bs).

Hypothesis layout : skipn s lines = blanks ++ (b0 :: bs) ++ rest.
Hypothesis blanks_blank : Forall (fun l => blank l = true) blanks.
Hypothesis b0_nonblank : blank b0 = false.

Lemma layout_idx : skip_blank (skipn s lines) s = i.
Proof.
  rewrite skip_blank_eq, layout. simpl app.
  now rewrite leading_blanks_app.
Qed.

Lemma layout_length :
  length lines = j + length rest.
Proof.
  pose proof (f_equal (@length str) layout) as E.
  rewrite length_skipn, !length_app in E. unfold j, i.
  simpl length in *. lia.
Qed.

Lemma layout_long : (length lines <=? i) = false.
Proof.
  apply Nat.leb_gt. rewrite layout_length. unfold j. simpl. lia.
Qed.

Lemma layout_skip_i : skipn i lines = (b0 :: bs) ++ rest.
Proof.
  unfold i. rewrite skipn_add, layout.
  now rewrite skipn_app, Nat.sub_diag, skipn_all.
Qed.

Lemma layout_nth : nth i lines [] = b0.
Proof.
  replace i with (i + 0) by lia. rewrite <- nth_skipn, layout_skip_i.
  reflexivity.
Qed.

Lemma layout_skip_j : skipn j lines = rest.
Proof.
  unfold j. rewrite skipn_add, layout_skip_i.
  now rewrite skipn_app, Nat.sub_diag, skipn_all.
Qed.

Lemma layout_tail :
  let k := skip_blank (skipn j lines) j in
  (if k <? length lines then skipn k lines else []) = drop_blank rest.
Proof.
  cbv zeta. rewrite layout_skip_j, skip_blank_eq. unfold drop_blank.
  destruct (j + leading_blanks rest <? length lines) eqn:E.
  - now rewrite skipn_add, layout_skip_j.
  - apply Nat.ltb_ge in E. rewrite layout_length in E.
    rewrite skipn_all2; [reflexivity | lia].
Qed.

End Layout.

Lemma removal_of_block (C : str) (cs : comment_style)
    (blanks : list str) (b0 : str) (bs rest : list str) :
  let lines := split_nl C in
  let s := if has_shebang lines then 1 else 0 in
  eqb (start cs) (middle cs) = false ->
  skipn s lines = blanks ++ (b0 :: bs) ++ rest ->
  Forall (fun l => blank l = true) blanks ->
  blank b0 = false ->
  startswith (strip b0) (start cs) = true ->
  (forall i, skip_block (end_ cs) ((b0 :: bs) ++ rest) i
             = i + length (b0 :: bs)) ->
  remove_existing_header C cs
    = join_nl (kept_shebang lines ++ drop_blank rest).
Proof.
  intros lines s Hm Hlay Hbl Hb Hst Hsk.
  pose proof (layout_idx C blanks b0 bs rest Hlay Hbl Hb) as L1.
  pose proof (layout_long C blanks b0 bs rest Hlay) as L2.
  pose proof (layout_nth C blanks b0 bs rest Hlay) as L3.
  pose proof (layout_skip_i C blanks b0 bs rest Hlay) as L4.
  pose proof (layout_tail C blanks b0 bs rest Hlay) as L5. cbv zeta in L5.
  fold lines in L1, L2, L3, L4, L5. fold s in L1, L2, L3, L4, L5.
  set (i := s + length blanks) in *.
  assert (Hidx : header_idx lines = i) by exact L1.
  assert (EX : exists c h, extract_existing_header C cs = Some (c :: h)).
  { apply extract_multi_found; fold lines; rewrite ?Hidx, ?L3.
    - exact Hm.
    - now apply Nat.leb_gt.
    - exact Hst. }
  destruct EX as [c [h EX]].
  rewrite (remove_found _ _ _ EX) by discriminate. unfold removal_of.
  fold lines. fold s. rewrite L1, L2, Hm, L3, Hst, L4, Hsk, L5.
  reflexivity.
Qed.

(** X18: In multi-line mode, when the first line that is not blank starts (once
    trimmed) with the start marker and the block runs to a line [e] that
    contains the end marker, removal returns the shebang line (if any)
    followed by what comes after [e], less the blank lines in front: the
    block and the blank lines around it go, every later line stays as it
    is. *)
Theorem block_removal_exact (C : str) (cs : comment_style)
    (blanks xs : list str) (e : str) (rest : list str) :
  let lines := split_nl C in
  let s := if has_shebang lines then 1 else 0 in
  eqb (start cs) (middle cs) = false ->
  skipn s lines = blanks ++ (xs ++ [e]) ++ rest ->
  Forall (fun l => blank l = true) blanks ->
  blank (hd e xs) = false ->
  startswith (strip (hd e xs)) (start cs) = true ->
  Forall (fun l => contains (end_ cs) l = false) xs ->
  contains (end_ cs) e = true ->
  remove_existing_header C cs
    = join_nl (kept_shebang lines ++ drop_blank rest).
Proof.
  intros lines s Hm Hlay Hbl Hb Hst Hxs He.
  assert (Hsk : forall i, skip_block (end_ cs) ((xs ++ [e]) ++ rest) i
                          = i + length (xs ++ [e])).
  { intros i. rewrite <- app_assoc. simpl app.
    rewrite skip_block_upto by assumption. rewrite length_app. simpl. lia. }
  destruct xs as [|x xs']; simpl hd in *.
  - now apply (removal_of_block C cs blanks e [] rest).
  - now apply (removal_of_block C cs blanks x (xs' ++ [e]) rest).
Qed.

Lemma block_removal_exact_witness :
  remove_existing_header body_before CommentRegistry.c_style
  = join_nl (kept_shebang (split_nl body_before)
             ++ drop_blank [lit "body();"; []]).
Proof.
  apply (block_removal_exact body_before CommentRegistry.c_style []
           [lit "/*"; lit " * Copyright 2020 Old"] (lit " */")
           [lit "body();"; []]); try reflexivity.
  - constructor.
  - repeat constructor.
Defined.

Lemma collect_single_run (st : str) (run rest : list str) :
  Forall (fun l => startswith (strip l) st = true) run ->
  collect_single st (run ++ rest)
    = map strip run ++ collect_single st rest.
Proof.
  induction 1 as [|l run Hl _ IH]; simpl; [reflexivity|].
  now rewrite Hl, IH.
Qed.

Lemma collect_single_no_nl (st : str) (rest : list str) :
  Forall no_nl rest -> Forall no_nl (collect_single st rest).
Proof.
  induction 1 as [|l rest Hl _ IH]; simpl; [constructor|].
  destruct (startswith (strip l) st).
  - constructor; [now apply strip_no_nl | assumption].
  - destruct (negb (truthy (strip l))); [assumption | constructor].
Qed.

Lemma match_header_run (run X rest : list str) (i : nat) :
  match rest, X with
  | r :: _, x :: _ => eqb (strip r) (strip x) = false
  | _, _ => True
  end ->
  match_header (map strip run ++ X) (run ++ rest) i = i + length run.
Proof.
  intros H. revert i. induction run as [|l run IH]; intros i; simpl.
  - destruct X as [|x X]; destruct rest as [|r rest]; simpl; try lia.
    rewrite H. lia.
  - rewrite strip_idem, eqb_refl, IH. lia.
Qed.

(** X19: In single-line mode, when the first line that is not blank opens a run
    of comment lines with no blank line inside, followed by a line that is
    no comment line (or by nothing), removal returns the shebang line (if
    any) followed by what comes after the run, less the blank lines in
    front: the run and the blank lines around it go, every later line stays
    as it is. *)
Theorem single_line_removal_exact (C : str) (cs : comment_style)
    (blanks : list str) (c0 : str) (run rest : list str) :
  let lines := split_nl C in
  let s := if has_shebang lines then 1 else 0 in
  eqb (start cs) (middle cs) = true ->
  skipn s lines = blanks ++ (c0 :: run) ++ rest ->
  Forall (fun l => blank l = true) blanks ->
  blank c0 = false ->
  Forall (fun l => startswith (strip l) (start cs) = true) (c0 :: run) ->
  match rest with
  | r :: _ => startswith (strip r) (start cs) = false
  | [] => True
  end ->
  remove_existing_header C cs
    = join_nl (kept_shebang lines ++ drop_blank rest).
Proof.
  intros lines s Hm Hlay Hbl Hb Hrun Hrest.
  pose proof (layout_idx C blanks c0 run rest Hlay Hbl Hb) as L1.
  pose proof (layout_long C blanks c0 run rest Hlay) as L2.
  pose proof (layout_nth C blanks c0 run rest Hlay) as L3.
  pose proof (layout_skip_i C blanks c0 run rest Hlay) as L4.
  pose proof (layout_tail C blanks c0 run rest Hlay) as L5. cbv zeta in L5.
  fold lines in L1, L2, L3, L4, L5. fold s in L1, L2, L3, L4, L5.
  set (i := s + length blanks) in *.
  set (X := collect_single (start cs) rest).
  set (hl := map strip (c0 :: run) ++ X).
  assert (Hc : collect_single (start cs) ((c0 :: run) ++ rest) = hl)
    by now apply collect_single_run.
  assert (Hst : startswith (strip c0) (start cs) = true)
    by now inversion Hrun.
  assert (Hnl : Forall no_nl hl).
  { rewrite <- Hc, <- L4. apply collect_single_no_nl, Forall_skipn.
    apply split_nl_no_nl. }
  assert (Hne : join_nl hl <> []).
  { unfold hl. simpl map. simpl app. apply join_nl_not_nil.
    unfold blank in Hb. now destruct (strip c0). }
  assert (EX : extract_existing_header C cs = Some (join_nl hl)).
  { unfold extract_existing_header. fold lines. fold s.
    rewrite L1, L2, L3, Hm, Hst, L4, Hc. reflexivity. }
  rewrite (remove_found _ _ _ EX Hne). unfold removal_of.
  fold lines. fold s. rewrite L1, L2, Hm, L4.
  rewrite split_join by (assumption || discriminate).
  unfold hl. rewrite match_header_run.
  - rewrite L5. reflexivity.
  - destruct rest as [|r rest']; [exact I|].
    pose proof (collect_single_lines (start cs) (r :: rest')) as P.
    fold X in P. destruct X as [|x X']; [exact I|].
    inversion P as [|? ? [P1 [P2 _]] _]; subst.
    apply eqb_neq. intros E. rewrite E, P2 in Hrest. congruence.
Qed.

Lemma single_line_removal_exact_witness :
  remove_existing_header
    (NL :: lit "# a" ++ NL :: lit "# b" ++ NL :: NL :: lit "code" ++ [NL])
    CommentRegistry.hash_style
  = join_nl ([] ++ drop_blank [[]; lit "code"; []]).
Proof.
  apply (single_line_removal_exact
           (NL :: lit "# a" ++ NL :: lit "# b" ++ NL :: NL
               :: lit "code" ++ [NL])
           CommentRegistry.hash_style [[]] (lit "# a") [lit "# b"]
           [[]; lit "code"; []]); try reflexivity.
  - repeat constructor.
  - repeat constructor.
Defined.

End ExactRemoval.
